(** * Priority-mask logging: a shallow embedding of package [logger]

    The package wraps Go's [log] package with the syslog severity scheme.
    Two revisions of logger.go are embedded:

    - the revision with [Priority] / [SetPriority], whose package-level
      functions act on a singleton [std : *Logger] (module [WithPriority]);
    - the revision with [SetLevel], whose package-level functions act on a
      package variable [upto] and on the [log] package's own standard
      logger (module [WithSetLevel]).

    Constants, name tables and the mask functions are the same text in both
    revisions and are embedded once.

    Go's [int] and [uint] are taken to be 64 bits wide (amd64, arm64, ...);
    [int32] is 32 bits wide.  Signed values are integers of [Z] kept in the
    two's complement range by [wrap64] / [wrap32]; bit operations are those
    of [Z], which agree with two's complement on that range. *)

From stdpp Require Import base gmap strings list fin_maps pretty.
From Stdlib Require Import ZArith Lia Ascii.

Local Open Scope Z_scope.

(** ** Machine integers *)

(** Reduction of an integer to the signed 64-bit range (Go [int]). *)
Definition wrap64 (z : Z) : Z := (z + 2 ^ 63) `mod` 2 ^ 64 - 2 ^ 63.

(** Reduction of an integer to the signed 32-bit range (Go [int32]). *)
Definition wrap32 (z : Z) : Z := (z + 2 ^ 31) `mod` 2 ^ 32 - 2 ^ 31.

(** The values of Go's [int]. *)
Definition is_int (z : Z) : Prop := - 2 ^ 63 ≤ z < 2 ^ 63.

(** The conversion [uint(x)] of an [int]. *)
Definition to_uint (z : Z) : Z := z `mod` 2 ^ 64.

(** [x << n] for [x : int] and a shift count [n : uint]: counts of 64 and
    more shift every bit out. *)
Definition shl_int (x n : Z) : Z :=
  if n <? 64 then wrap64 (Z.shiftl x n) else 0.

(** ** Levels and facilities *)

Definition Level := Z.

Definition LOG_EMERG : Level := 0.
Definition LOG_ALERT : Level := 1.
Definition LOG_CRIT : Level := 2.
Definition LOG_ERR : Level := 3.
Definition LOG_WARNING : Level := 4.
Definition LOG_NOTICE : Level := 5.
Definition LOG_INFO : Level := 6.
Definition LOG_DEBUG : Level := 7.

Definition LOG_PRIMASK : Z := 0x07.
Definition INTERNAL_NOPRI : Z := 0x10.

Definition Facility := Z.

Definition LOG_KERN : Facility := Z.shiftl 0 3.
Definition LOG_USER : Facility := Z.shiftl 1 3.
Definition LOG_MAIL : Facility := Z.shiftl 2 3.
Definition LOG_DAEMON : Facility := Z.shiftl 3 3.
Definition LOG_AUTH : Facility := Z.shiftl 4 3.
Definition LOG_SYSLOG : Facility := Z.shiftl 5 3.
Definition LOG_LPR : Facility := Z.shiftl 6 3.
Definition LOG_NEWS : Facility := Z.shiftl 7 3.
Definition LOG_UUCP : Facility := Z.shiftl 8 3.
Definition LOG_CRON : Facility := Z.shiftl 9 3.
Definition LOG_AUTHPRIV : Facility := Z.shiftl 10 3.
Definition LOG_FTP : Facility := Z.shiftl 11 3.
Definition LOG_LOCAL0 : Facility := Z.shiftl 16 3.
Definition LOG_LOCAL1 : Facility := Z.shiftl 17 3.
Definition LOG_LOCAL2 : Facility := Z.shiftl 18 3.
Definition LOG_LOCAL3 : Facility := Z.shiftl 19 3.
Definition LOG_LOCAL4 : Facility := Z.shiftl 20 3.
Definition LOG_LOCAL5 : Facility := Z.shiftl 21 3.
Definition LOG_LOCAL6 : Facility := Z.shiftl 22 3.
Definition LOG_LOCAL7 : Facility := Z.shiftl 23 3.

Definition LOG_NFACILITIES : Z := 24.
Definition LOG_FACMASK : Z := 0x03f8.
Definition INTERNAL_MARK : Z := Z.lor (Z.shiftl LOG_NFACILITIES 3) 0.

(** ** Mask algebra *)

Definition LOG_PRI (p : Z) : Level := Z.land p LOG_PRIMASK.

Definition LOG_MAKEPRI (fac : Facility) (pri : Level) : Z :=
  Z.lor (shl_int fac 3) pri.

Definition LOG_FAC (p : Z) : Facility := Z.shiftr (Z.land p LOG_FACMASK) 3.

Definition LOG_MASK (pri : Level) : Z := shl_int 1 (to_uint pri).

Definition LOG_UPTO (pri : Level) : Z :=
  wrap64 (shl_int 1 (to_uint (to_uint pri + 1)) - 1).

(** ** Name tables

    The composite literals, in the order of the source text.  A Go map has
    no order of its own; [Levels] and [Facilities] are the maps. *)

Definition Levels_entries : list (Level * string) :=
  [ (LOG_ALERT, "alert"); (LOG_CRIT, "crit"); (LOG_DEBUG, "debug");
    (LOG_EMERG, "emerg"); (LOG_ERR, "err"); (LOG_INFO, "info");
    (INTERNAL_NOPRI, "none"); (LOG_NOTICE, "notice");
    (LOG_WARNING, "warning") ]%string.

Definition Levels : gmap Z string := list_to_map Levels_entries.

Definition Facilities_entries : list (Facility * string) :=
  [ (LOG_AUTH, "auth"); (LOG_AUTHPRIV, "authpriv"); (LOG_CRON, "cron");
    (LOG_DAEMON, "daemon"); (LOG_FTP, "ftp"); (LOG_KERN, "kern");
    (LOG_LPR, "lpr"); (LOG_MAIL, "mail"); (INTERNAL_MARK, "mark");
    (LOG_NEWS, "news"); (LOG_SYSLOG, "syslog"); (LOG_USER, "user");
    (LOG_UUCP, "uucp"); (LOG_LOCAL0, "local0"); (LOG_LOCAL1, "local1");
    (LOG_LOCAL2, "local2"); (LOG_LOCAL3, "local3"); (LOG_LOCAL4, "local4");
    (LOG_LOCAL5, "local5"); (LOG_LOCAL6, "local6");
    (LOG_LOCAL7, "local7") ]%string.

Definition Facilities : gmap Z string := list_to_map Facilities_entries.

(** [Levels[prio]]: indexing a Go map yields the zero value of the element
    type for an absent key. *)
Definition Levels_at (prio : Level) : string := default ""%string (Levels !! prio).

(** ** Effects

    A call of the package writes lines to writers, and may end by raising a
    panic or by terminating the process.  The observable behaviour of a
    call is the trace of events it appends, in the order they happen, and
    the way it ends. *)

(** An [io.Writer], identified by name. *)
Definition Writer := string.
Definition os_Stderr : Writer := "/dev/stderr"%string.

(** What [log.Logger.Output] is handed for one line: the destination and
    the header configuration of the sink at that moment, the call depth,
    and the rendered text. *)
Record Line := mkLine {
  line_out : Writer;
  line_prefix : string;
  line_flag : Z;
  line_calldepth : Z;
  line_text : string
}.

Inductive Event :=
| EvWrite (ln : Line)
| EvPanic (payload : string)
| EvExit (code : Z).

Definition Trace := list Event.

Inductive Outcome (A : Type) :=
| Returns (a : A)
| Panics (payload : string)
| Exits (code : Z).
Arguments Returns {A} a.
Arguments Panics {A} payload.
Arguments Exits {A} code.

Definition M (A : Type) : Type := Trace → Outcome A * Trace.

#[global] Instance M_ret : MRet M := λ A a t, (Returns a, t).

#[global] Instance M_bind : MBind M := λ A B k m t,
  match m t with
  | (Returns a, t') => k a t'
  | (Panics s, t') => (Panics s, t')
  | (Exits c, t') => (Exits c, t')
  end.

(** The builtin [panic(s)]. *)
Definition panic {A} (s : string) : M A := λ t, (Panics s, t ++ [EvPanic s]).

(** [os.Exit(code)]. *)
Definition os_Exit {A} (code : Z) : M A := λ t, (Exits code, t ++ [EvExit code]).

(** ** The collaborators from Go's library *)

(** [fmt.Sprintf] over values of type [interface{}], of which the package
    itself only ever builds strings. *)
Class Fmt := {
  Value : Type;
  VString : string → Value;
  Sprintf : string → list Value → string
}.

(** [strings.ToLower]. *)
Class Strings := {
  ToLower : string → string
}.

(** [os.Getenv] of one variable: the value, or the empty string when the
    variable is not set. *)
Definition os_Getenv (env : option string) : string := default ""%string env.

(** The part of [log.Logger] the package delegates to. *)
Record log_Logger := log_mk {
  log_out : Writer;
  log_prefix : string;
  log_flag : Z
}.

Definition log_LstdFlags : Z := 3.

Definition log_New (out : Writer) (prefix : string) (flag : Z) : log_Logger :=
  log_mk out prefix flag.

Definition log_Flags (l : log_Logger) : Z := log_flag l.
Definition log_Prefix (l : log_Logger) : string := log_prefix l.
Definition log_SetFlags (l : log_Logger) (flag : Z) : log_Logger :=
  log_mk (log_out l) (log_prefix l) flag.
Definition log_SetPrefix (l : log_Logger) (prefix : string) : log_Logger :=
  log_mk (log_out l) prefix (log_flag l).
Definition log_SetOutput (l : log_Logger) (out : Writer) : log_Logger :=
  log_mk out (log_prefix l) (log_flag l).

Definition log_Output (l : log_Logger) (calldepth : Z) (s : string) : M unit :=
  λ t, (Returns (), t ++ [EvWrite (mkLine (log_out l) (log_prefix l) (log_flag l) calldepth s)]).

Definition log_Printf `{Fmt} (l : log_Logger) (format : string) (v : list Value) : M unit :=
  log_Output l 2 (Sprintf format v).

Definition log_Panicf `{Fmt} (l : log_Logger) (format : string) (v : list Value) : M unit :=
  let s := Sprintf format v in
  log_Output l 2 s ;; panic s.

Definition log_Fatalf `{Fmt} (l : log_Logger) (format : string) (v : list Value) : M unit :=
  log_Output l 2 (Sprintf format v) ;; os_Exit 1.

(** ** The logger *)

Record Logger := mkLogger {
  logger : log_Logger;
  upto : Z
}.

(** [if mask & LOG_MASK(prio) != 0 { body }], the statement every severity
    method consists of. *)
Definition guarded (mask : Z) (prio : Level) (body : M unit) : M unit :=
  if negb (Z.land mask (LOG_MASK prio) =? 0) then body else mret ().

(** The eight severities that have a method. *)
Inductive Severity :=
| SevEmerg | SevAlert | SevCrit | SevError
| SevWarning | SevNotice | SevInfo | SevDebug.

Definition sev_level (s : Severity) : Level :=
  match s with
  | SevEmerg => LOG_EMERG | SevAlert => LOG_ALERT
  | SevCrit => LOG_CRIT | SevError => LOG_ERR
  | SevWarning => LOG_WARNING | SevNotice => LOG_NOTICE
  | SevInfo => LOG_INFO | SevDebug => LOG_DEBUG
  end.

(** ** The revision with [Priority] and [SetPriority] *)

Module WithPriority.
Section Code.
Context `{Fmt} `{Strings}.

Definition NewLogger (out : Writer) (prefix : string) (flag : Z) (priority : Level) : Logger :=
  mkLogger (log_New out prefix flag) (LOG_UPTO priority).

Definition Logger_Flags (l : Logger) : Z := log_Flags (logger l).

Definition Logger_Prefix (l : Logger) : string := log_Prefix (logger l).

(** The count of trailing one bits of [l.upto], by a 32-bit population
    count of the bits below its lowest zero bit. *)
Definition Logger_Priority (l : Logger) : Level :=
  let b := wrap32 (Z.land (Z.lnot (upto l)) (wrap64 (upto l + 1))) in
  let b := wrap32 (b - 1) in
  let b := wrap32 (Z.land b 0x55555555 + Z.land (Z.shiftr b 1) 0x55555555) in
  let b := wrap32 (Z.land b 0x33333333 + Z.land (Z.shiftr b 2) 0x33333333) in
  let b := wrap32 (Z.land b 0x0f0f0f0f + Z.land (Z.shiftr b 4) 0x0f0f0f0f) in
  let b := wrap32 (Z.land b 0x00ff00ff + Z.land (Z.shiftr b 8) 0x00ff00ff) in
  let b := wrap32 (Z.land b 0x0000ffff + Z.land (Z.shiftr b 16) 0x0000ffff) in
  b.

Definition Logger_SetFlags (l : Logger) (flag : Z) : Logger :=
  mkLogger (log_SetFlags (logger l) flag) (upto l).

Definition Logger_SetPrefix (l : Logger) (prefix : string) : Logger :=
  mkLogger (log_SetPrefix (logger l) prefix) (upto l).

Definition Logger_SetPriority (l : Logger) (priority : Level) : Logger :=
  mkLogger (logger l) (LOG_UPTO priority).

Definition Logger_Panic (l : Logger) (format : string) (v : list Value) : M unit :=
  let s := Sprintf ("[panic] " +:+ format) v in
  log_Output (logger l) 3 s ;; panic s.

Definition Logger_Fatal (l : Logger) (format : string) (v : list Value) : M unit :=
  log_Output (logger l) 3 (Sprintf ("[fatal] " +:+ format) v) ;; os_Exit 1.

Definition Logger_printf (l : Logger) (format : string) (prio : Level) (v : list Value) : M unit :=
  log_Output (logger l) 3
    (Sprintf (Sprintf "[%s] %s" [VString (Levels_at prio); VString format]) v).

Definition Logger_Emerg (l : Logger) (format : string) (v : list Value) : M unit :=
  guarded (upto l) LOG_EMERG (Logger_printf l format LOG_EMERG v).
Definition Logger_Alert (l : Logger) (format : string) (v : list Value) : M unit :=
  guarded (upto l) LOG_ALERT (Logger_printf l format LOG_ALERT v).
Definition Logger_Crit (l : Logger) (format : string) (v : list Value) : M unit :=
  guarded (upto l) LOG_CRIT (Logger_printf l format LOG_CRIT v).
Definition Logger_Error (l : Logger) (format : string) (v : list Value) : M unit :=
  guarded (upto l) LOG_ERR (Logger_printf l format LOG_ERR v).
Definition Logger_Warning (l : Logger) (format : string) (v : list Value) : M unit :=
  guarded (upto l) LOG_WARNING (Logger_printf l format LOG_WARNING v).
Definition Logger_Notice (l : Logger) (format : string) (v : list Value) : M unit :=
  guarded (upto l) LOG_NOTICE (Logger_printf l format LOG_NOTICE v).
Definition Logger_Info (l : Logger) (format : string) (v : list Value) : M unit :=
  guarded (upto l) LOG_INFO (Logger_printf l format LOG_INFO v).
Definition Logger_Debug (l : Logger) (format : string) (v : list Value) : M unit :=
  guarded (upto l) LOG_DEBUG (Logger_printf l format LOG_DEBUG v).

(** The method of a severity. *)
Definition Logger_emit (s : Severity) : Logger → string → list Value → M unit :=
  match s with
  | SevEmerg => Logger_Emerg | SevAlert => Logger_Alert
  | SevCrit => Logger_Crit | SevError => Logger_Error
  | SevWarning => Logger_Warning | SevNotice => Logger_Notice
  | SevInfo => Logger_Info | SevDebug => Logger_Debug
  end.

(** *** Package level

    The package variable [std] is the whole state; every function takes its
    current value, and the functions that assign to it or through it return
    the new one. *)

Definition std_initial : Logger := NewLogger os_Stderr "" log_LstdFlags LOG_ERR.

Definition Flags (std : Logger) : Z := Logger_Flags std.
Definition Prefix (std : Logger) : string := Logger_Prefix std.
Definition Priority (std : Logger) : Level := Logger_Priority std.

Definition SetOutput (std : Logger) (out : Writer) : Logger :=
  NewLogger out (Prefix std) (Flags std) (Priority std).

Definition SetFlags (std : Logger) (flag : Z) : Logger := Logger_SetFlags std flag.
Definition SetPrefix (std : Logger) (prefix : string) : Logger := Logger_SetPrefix std prefix.
Definition SetPriority (std : Logger) (priority : Level) : Logger :=
  Logger_SetPriority std priority.

(** The loop of [init] over the entries of [Levels] in the order [order]
    the runtime happens to enumerate them; a match sets the priority and
    leaves the loop. *)
Fixpoint init_range (s : string) (order : list (Level * string)) (std : Logger) : Logger :=
  match order with
  | [] => std
  | (k, v) :: rest =>
      if String.eqb (ToLower s) v then SetPriority std k
      else init_range s rest std
  end.

(** Package initialisation: the variable [std] first, then [init], with
    [env] the setting of GOLOGLEVEL. *)
Definition init (env : option string) (order : list (Level * string)) : Logger :=
  init_range (os_Getenv env) order std_initial.

Definition Panic (std : Logger) (format : string) (v : list Value) : M unit :=
  let s := Sprintf ("[panic] " +:+ format) v in
  log_Output (logger std) 3 s ;; panic s.

Definition Fatal (std : Logger) (format : string) (v : list Value) : M unit :=
  log_Output (logger std) 3 (Sprintf ("[fatal] " +:+ format) v) ;; os_Exit 1.

Definition Emerg (std : Logger) (format : string) (v : list Value) : M unit :=
  guarded (upto std) LOG_EMERG (Logger_printf std format LOG_EMERG v).
Definition Alert (std : Logger) (format : string) (v : list Value) : M unit :=
  guarded (upto std) LOG_ALERT (Logger_printf std format LOG_ALERT v).
Definition Crit (std : Logger) (format : string) (v : list Value) : M unit :=
  guarded (upto std) LOG_CRIT (Logger_printf std format LOG_CRIT v).
Definition Error (std : Logger) (format : string) (v : list Value) : M unit :=
  guarded (upto std) LOG_ERR (Logger_printf std format LOG_ERR v).
Definition Warning (std : Logger) (format : string) (v : list Value) : M unit :=
  guarded (upto std) LOG_WARNING (Logger_printf std format LOG_WARNING v).
Definition Notice (std : Logger) (format : string) (v : list Value) : M unit :=
  guarded (upto std) LOG_NOTICE (Logger_printf std format LOG_NOTICE v).
Definition Info (std : Logger) (format : string) (v : list Value) : M unit :=
  guarded (upto std) LOG_INFO (Logger_printf std format LOG_INFO v).
Definition Debug (std : Logger) (format : string) (v : list Value) : M unit :=
  guarded (upto std) LOG_DEBUG (Logger_printf std format LOG_DEBUG v).

(** The package function of a severity. *)
Definition emit (s : Severity) : Logger → string → list Value → M unit :=
  match s with
  | SevEmerg => Emerg | SevAlert => Alert
  | SevCrit => Crit | SevError => Error
  | SevWarning => Warning | SevNotice => Notice
  | SevInfo => Info | SevDebug => Debug
  end.

(** The loggers a program can hold, each with the threshold it was last
    configured with: the result of [NewLogger], and what the setters make
    of it.  The severity methods, [Panic] and [Fatal] leave the logger as
    it is.  [std] is such a logger throughout: [SetOutput] replaces it by a
    new logger made with [NewLogger]. *)
Inductive configured : Logger → Level → Prop :=
| configured_NewLogger out prefix flag priority :
    configured (NewLogger out prefix flag priority) priority
| configured_SetPriority l T priority :
    configured l T → configured (Logger_SetPriority l priority) priority
| configured_SetFlags l T flag :
    configured l T → configured (Logger_SetFlags l flag) T
| configured_SetPrefix l T prefix :
    configured l T → configured (Logger_SetPrefix l prefix) T.

End Code.
End WithPriority.

(** ** The revision with [SetLevel] *)

Module WithSetLevel.
Section Code.
Context `{Fmt} `{Strings}.

Definition NewLogger (out : Writer) (prefix : string) (flag : Z) (priority : Level) : Logger :=
  mkLogger (log_New out prefix flag) (LOG_UPTO priority).

Definition Logger_SetFlags (l : Logger) (flag : Z) : Logger :=
  mkLogger (log_SetFlags (logger l) flag) (upto l).

Definition Logger_SetPrefix (l : Logger) (prefix : string) : Logger :=
  mkLogger (log_SetPrefix (logger l) prefix) (upto l).

Definition Logger_SetLevel (l : Logger) (priority : Level) : Logger :=
  mkLogger (logger l) (LOG_UPTO priority).

Definition Logger_Panic (l : Logger) (format : string) (v : list Value) : M unit :=
  log_Panicf (logger l) (Sprintf "[panic] %s" [VString format]) v.

Definition Logger_Fatal (l : Logger) (format : string) (v : list Value) : M unit :=
  log_Fatalf (logger l) (Sprintf "[fatal] %s" [VString format]) v.

Definition Logger_printf (l : Logger) (format : string) (prio : Level) (v : list Value) : M unit :=
  log_Printf (logger l) (Sprintf "[%s] %s" [VString (Levels_at prio); VString format]) v.

Definition Logger_Emerg (l : Logger) (format : string) (v : list Value) : M unit :=
  guarded (upto l) LOG_EMERG (Logger_printf l format LOG_EMERG v).
Definition Logger_Alert (l : Logger) (format : string) (v : list Value) : M unit :=
  guarded (upto l) LOG_ALERT (Logger_printf l format LOG_ALERT v).
Definition Logger_Crit (l : Logger) (format : string) (v : list Value) : M unit :=
  guarded (upto l) LOG_CRIT (Logger_printf l format LOG_CRIT v).
Definition Logger_Error (l : Logger) (format : string) (v : list Value) : M unit :=
  guarded (upto l) LOG_ERR (Logger_printf l format LOG_ERR v).
Definition Logger_Warning (l : Logger) (format : string) (v : list Value) : M unit :=
  guarded (upto l) LOG_WARNING (Logger_printf l format LOG_WARNING v).
Definition Logger_Notice (l : Logger) (format : string) (v : list Value) : M unit :=
  guarded (upto l) LOG_NOTICE (Logger_printf l format LOG_NOTICE v).
Definition Logger_Info (l : Logger) (format : string) (v : list Value) : M unit :=
  guarded (upto l) LOG_INFO (Logger_printf l format LOG_INFO v).
Definition Logger_Debug (l : Logger) (format : string) (v : list Value) : M unit :=
  guarded (upto l) LOG_DEBUG (Logger_printf l format LOG_DEBUG v).

(** The method of a severity. *)
Definition Logger_emit (s : Severity) : Logger → string → list Value → M unit :=
  match s with
  | SevEmerg => Logger_Emerg | SevAlert => Logger_Alert
  | SevCrit => Logger_Crit | SevError => Logger_Error
  | SevWarning => Logger_Warning | SevNotice => Logger_Notice
  | SevInfo => Logger_Info | SevDebug => Logger_Debug
  end.

(** *** Package level

    The state is the package variable [upto] together with the standard
    logger of package [log], which the package-level functions write
    through. *)

Record Pkg := mkPkg {
  log_std : log_Logger;
  pkg_upto : Z
}.

Definition log_std_initial : log_Logger := log_New os_Stderr "" log_LstdFlags.

(** The loop of [init] over the entries of [Levels] in the order [order];
    every match assigns, and the loop runs to the end. *)
Fixpoint init_range (s : string) (order : list (Level * string)) (upto : Z) : Z :=
  match order with
  | [] => upto
  | (k, v) :: rest =>
      init_range s rest (if String.eqb (ToLower s) v then LOG_UPTO k else upto)
  end.

Definition init (env : option string) (order : list (Level * string)) : Pkg :=
  mkPkg log_std_initial (init_range (os_Getenv env) order (LOG_UPTO LOG_ERR)).

Definition SetOutput (p : Pkg) (out : Writer) : Pkg :=
  mkPkg (log_SetOutput (log_std p) out) (pkg_upto p).
Definition SetFlags (p : Pkg) (flag : Z) : Pkg :=
  mkPkg (log_SetFlags (log_std p) flag) (pkg_upto p).
Definition SetPrefix (p : Pkg) (prefix : string) : Pkg :=
  mkPkg (log_SetPrefix (log_std p) prefix) (pkg_upto p).
Definition SetLevel (p : Pkg) (priority : Level) : Pkg :=
  mkPkg (log_std p) (LOG_UPTO priority).

Definition Panic (p : Pkg) (format : string) (v : list Value) : M unit :=
  log_Panicf (log_std p) (Sprintf "[panic] %s" [VString format]) v.

Definition Fatal (p : Pkg) (format : string) (v : list Value) : M unit :=
  log_Fatalf (log_std p) (Sprintf "[fatal] %s" [VString format]) v.

Definition printf (p : Pkg) (format : string) (prio : Level) (v : list Value) : M unit :=
  log_Printf (log_std p) (Sprintf "[%s] %s" [VString (Levels_at prio); VString format]) v.

Definition Emerg (p : Pkg) (format : string) (v : list Value) : M unit :=
  guarded (pkg_upto p) LOG_EMERG (printf p format LOG_EMERG v).
Definition Alert (p : Pkg) (format : string) (v : list Value) : M unit :=
  guarded (pkg_upto p) LOG_ALERT (printf p format LOG_ALERT v).
Definition Crit (p : Pkg) (format : string) (v : list Value) : M unit :=
  guarded (pkg_upto p) LOG_CRIT (printf p format LOG_CRIT v).
Definition Error (p : Pkg) (format : string) (v : list Value) : M unit :=
  guarded (pkg_upto p) LOG_ERR (printf p format LOG_ERR v).
Definition Warning (p : Pkg) (format : string) (v : list Value) : M unit :=
  guarded (pkg_upto p) LOG_WARNING (printf p format LOG_WARNING v).
Definition Notice (p : Pkg) (format : string) (v : list Value) : M unit :=
  guarded (pkg_upto p) LOG_NOTICE (printf p format LOG_NOTICE v).
Definition Info (p : Pkg) (format : string) (v : list Value) : M unit :=
  guarded (pkg_upto p) LOG_INFO (printf p format LOG_INFO v).
Definition Debug (p : Pkg) (format : string) (v : list Value) : M unit :=
  guarded (pkg_upto p) LOG_DEBUG (printf p format LOG_DEBUG v).

(** The package function of a severity. *)
Definition emit (s : Severity) : Pkg → string → list Value → M unit :=
  match s with
  | SevEmerg => Emerg | SevAlert => Alert
  | SevCrit => Crit | SevError => Error
  | SevWarning => Warning | SevNotice => Notice
  | SevInfo => Info | SevDebug => Debug
  end.

End Code.
End WithSetLevel.

(** ** What the package relies on in [fmt.Sprintf] *)

Fixpoint percent_free (s : string) : bool :=
  match s with
  | EmptyString => true
  | String c rest => negb (Ascii.eqb c "%"%char) && percent_free rest
  end.

(** Text without a verb is copied as it is and consumes no operand; the
    verb [%s] renders a string operand as it is. *)
Class FmtLaws `{Fmt} : Prop := {
  Sprintf_literal lit format v :
    percent_free lit = true →
    Sprintf (lit +:+ format) v = lit +:+ Sprintf format v;
  Sprintf_tag (a b : string) :
    Sprintf "[%s] %s" [VString a; VString b] = "[" +:+ a +:+ "] " +:+ b;
  Sprintf_string lit (a : string) :
    percent_free lit = true →
    Sprintf (lit +:+ "%s") [VString a] = lit +:+ a
}.

(** ** Instances to run the embedding on

    A formatter for the verbs [%s], [%d], [%v] and [%%] over strings and
    integers, without flags, widths or operand indexes, which reports
    missing operands, extra operands and other verbs the way [fmt] does;
    and the lower-casing of ASCII text. *)

Module Run.

Inductive GoValue :=
| GoString (s : string)
| GoInt (n : Z).

Definition type_name (a : GoValue) : string :=
  match a with GoString _ => "string" | GoInt _ => "int" end.

Definition show (a : GoValue) : string :=
  match a with GoString s => s | GoInt n => pretty n end.

Definition bad_verb (c : ascii) (a : GoValue) : string :=
  "%!" +:+ String c ("(" +:+ type_name a +:+ "=" +:+ show a +:+ ")").

Definition verb (c : ascii) (a : GoValue) : string :=
  if Ascii.eqb c "v"%char then show a
  else match a with
       | GoString s => if Ascii.eqb c "s"%char then s else bad_verb c a
       | GoInt n => if Ascii.eqb c "d"%char then pretty n else bad_verb c a
       end.

Fixpoint extra_list (args : list GoValue) : string :=
  match args with
  | [] => ""
  | [a] => type_name a +:+ "=" +:+ show a
  | a :: rest => type_name a +:+ "=" +:+ show a +:+ ", " +:+ extra_list rest
  end.

Definition extra (args : list GoValue) : string :=
  match args with
  | [] => ""
  | _ => "%!(EXTRA " +:+ extra_list args +:+ ")"
  end.

Fixpoint render (format : string) (args : list GoValue) : string :=
  match format with
  | EmptyString => extra args
  | String c rest =>
      if Ascii.eqb c "%"%char then
        match rest with
        | EmptyString => "%!(NOVERB)" +:+ extra args
        | String d rest' =>
            if Ascii.eqb d "%"%char then String "%"%char (render rest' args)
            else match args with
                 | [] => "%!" +:+ String d ("(MISSING)" +:+ render rest' [])
                 | a :: args' => verb d a +:+ render rest' args'
                 end
        end
      else String c (render rest args)
  end.

#[global] Instance fmt : Fmt :=
  {| Value := GoValue; VString := GoString; Sprintf := render |}.

Definition lower_byte (c : ascii) : ascii :=
  let n := nat_of_ascii c in
  if ((65 <=? n) && (n <=? 90))%nat then ascii_of_nat (n + 32) else c.

Fixpoint lower (s : string) : string :=
  match s with
  | EmptyString => EmptyString
  | String c rest => String (lower_byte c) (lower rest)
  end.

#[global] Instance strs : Strings := {| ToLower := lower |}.

End Run.

(** ** Observations on a call *)

(** The call returns normally after handing exactly one line to the writer
    [out]. *)
Definition writes_to (out : Writer) (m : M unit) : Prop :=
  ∀ t, ∃ ln, line_out ln = out ∧ m t = (Returns (), t ++ [EvWrite ln]).

(** The call returns normally and leaves no trace. *)
Definition silent (m : M unit) : Prop :=
  ∀ t, m t = (Returns (), t).

(** The line a logger's sink is handed for the text [s] at call depth
    [depth]. *)
Definition line_of (lg : log_Logger) (depth : Z) (s : string) : Line :=
  mkLine (log_out lg) (log_prefix lg) (log_flag lg) depth s.

(** The low [k] bits of the 64 of [m] are set and the others are clear. *)
Definition low_run (m k : Z) : Prop :=
  ∀ i, 0 ≤ i < 64 → Z.testbit m i = (i <? k).

(** * Properties *)

(** ** Machine integers and the mask algebra *)

Lemma wrap64_small z : - 2 ^ 63 ≤ z < 2 ^ 63 → wrap64 z = z.
Proof.
  intros Hz. unfold wrap64.
  rewrite Z.mod_small; lia.
Qed.

Lemma to_uint_small z : 0 ≤ z < 2 ^ 64 → to_uint z = z.
Proof. intros Hz. unfold to_uint. by rewrite Z.mod_small. Qed.

Lemma to_uint_range z : 0 ≤ to_uint z < 2 ^ 64.
Proof. unfold to_uint. apply Z.mod_pos_bound. lia. Qed.

Lemma level_cases (L : Z) :
  0 ≤ L ≤ 7 → L = 0 ∨ L = 1 ∨ L = 2 ∨ L = 3 ∨ L = 4 ∨ L = 5 ∨ L = 6 ∨ L = 7.
Proof. lia. Qed.

Ltac each_level H :=
  apply level_cases in H;
  destruct H as [->|[->|[->|[->|[->|[->|[->| ->]]]]]]].

(** [(1 << u) - 1] in 64-bit arithmetic, for a shift count below 64. *)
Lemma shl_pred_ones u :
  0 ≤ u ≤ 63 → wrap64 (wrap64 (Z.shiftl 1 u) - 1) = Z.ones u.
Proof.
  intros Hu. destruct (decide (u = 63)) as [->|Hne]; [by vm_compute|].
  rewrite Z.shiftl_1_l, Z.ones_equiv.
  assert (0 < 2 ^ u ≤ 2 ^ 62) as Hp.
  { split; [apply Z.pow_pos_nonneg; lia | apply Z.pow_le_mono_r; lia]. }
  rewrite (wrap64_small (2 ^ u)) by lia.
  rewrite wrap64_small; lia.
Qed.

Lemma LOG_UPTO_closed (T : Level) :
  0 ≤ T ≤ 62 → LOG_UPTO T = Z.shiftl 1 (T + 1) - 1.
Proof.
  intros HT. unfold LOG_UPTO, shl_int.
  rewrite (to_uint_small T) by lia.
  rewrite (to_uint_small (T + 1)) by lia.
  destruct (Z.ltb_spec (T + 1) 64); [|lia].
  rewrite shl_pred_ones by lia.
  rewrite Z.ones_equiv, Z.shiftl_1_l. lia.
Qed.

(** Whatever the priority, [LOG_UPTO] is a run of low-order one bits. *)
Lemma LOG_UPTO_low_run (pri : Level) :
  ∃ k, 0 ≤ k ≤ 64 ∧ low_run (LOG_UPTO pri) k.
Proof.
  unfold LOG_UPTO, shl_int.
  pose proof (to_uint_range (to_uint pri + 1)) as Hu.
  set (u := to_uint (to_uint pri + 1)) in *.
  destruct (Z.ltb_spec u 64) as [Hlt|Hge].
  - exists u. split; [lia|]. intros i Hi.
    rewrite shl_pred_ones by lia.
    rewrite Z.testbit_ones by lia.
    destruct (Z.leb_spec 0 i); [done | lia].
  - exists 64. split; [lia|]. intros i Hi.
    change (wrap64 (0 - 1)) with (-1).
    rewrite Z.bits_m1 by lia.
    destruct (Z.ltb_spec i 64); [done | lia].
Qed.

Lemma LOG_MASK_level (L : Level) : 0 ≤ L ≤ 7 → LOG_MASK L = 2 ^ L.
Proof. intros HL. each_level HL; reflexivity. Qed.

(** The test of a severity method against the mask of a threshold. *)
Lemma mask_test (L : Level) (s : Severity) :
  0 ≤ L ≤ 7 →
  negb (Z.land (LOG_UPTO L) (LOG_MASK (sev_level s)) =? 0) = (sev_level s <=? L).
Proof. intros HL. each_level HL; destruct s; reflexivity. Qed.

Lemma guarded_LOG_UPTO (L : Level) (s : Severity) (body : M unit) :
  0 ≤ L ≤ 7 →
  guarded (LOG_UPTO L) (sev_level s) body
  = if sev_level s <=? L then body else mret ().
Proof. intros HL. unfold guarded. by rewrite mask_test. Qed.

(** C3.  For every level L in 0..7, [LOG_UPTO L] equals (1 << (L+1)) - 1 and
    has exactly the bits 0 through L set; [LOG_UPTO 7] is 0xFF; and
    [LOG_MASK L] has exactly one bit set, the one at position L. *)
Theorem LOG_UPTO_LOG_MASK_bits (L : Level) :
  0 ≤ L ≤ 7 →
  LOG_UPTO L = Z.shiftl 1 (L + 1) - 1
  ∧ (∀ i, Z.testbit (LOG_UPTO L) i = (0 <=? i) && (i <=? L))
  ∧ LOG_UPTO 7 = 0xFF
  ∧ LOG_MASK L = Z.shiftl 1 L
  ∧ (∀ i, Z.testbit (LOG_MASK L) i = (i =? L)).
Proof.
  intros HL. split; [apply LOG_UPTO_closed; lia|].
  split.
  { intros i. rewrite LOG_UPTO_closed by lia.
    rewrite Z.shiftl_1_l.
    replace (2 ^ (L + 1) - 1) with (Z.ones (L + 1)) by (rewrite Z.ones_equiv; lia).
    rewrite Z.testbit_ones by lia.
    destruct (Z.leb_spec 0 i); simpl; [|done].
    destruct (Z.ltb_spec i (L + 1)), (Z.leb_spec i L); done || lia. }
  split; [reflexivity|].
  rewrite LOG_MASK_level, Z.shiftl_1_l by done.
  split; [done|].
  intros i. rewrite Z.pow2_bits_eqb by lia. apply Z.eqb_sym.
Qed.

Lemma LOG_UPTO_LOG_MASK_bits_witness :
  LOG_UPTO 5 = Z.shiftl 1 (5 + 1) - 1
  ∧ (∀ i, Z.testbit (LOG_UPTO 5) i = (0 <=? i) && (i <=? 5))
  ∧ LOG_UPTO 7 = 0xFF
  ∧ LOG_MASK 5 = Z.shiftl 1 5
  ∧ (∀ i, Z.testbit (LOG_MASK 5) i = (i =? 5)).
Proof. apply (LOG_UPTO_LOG_MASK_bits 5). lia. Defined.

(** ** Packing a facility and a level *)

Lemma Facilities_entry (F : Facility) (name : string) :
  Facilities !! F = Some name → (F, name) ∈ Facilities_entries.
Proof. apply elem_of_list_to_map_2. Qed.

(** C10.  For a facility of the table and a level in 0..7, [LOG_PRI]
    recovers the level from [LOG_MAKEPRI], but [LOG_FAC] recovers the
    facility only below 128: [LOG_MAKEPRI] shifts the facility constant,
    which is shifted already, by three more bits, and [LOG_FACMASK] keeps
    bits 3 to 9 only, so local0..local7 and mark come back 128 lower
    (local0 as kern). *)
Theorem LOG_FAC_LOG_MAKEPRI_drops_high_bit (F : Facility) (name : string) (L : Level) :
  Facilities !! F = Some name →
  0 ≤ L ≤ 7 →
  LOG_PRI (LOG_MAKEPRI F L) = L
  ∧ LOG_FAC (LOG_MAKEPRI F L) = (if F <? 128 then F else F - 128).
Proof.
  intros HF HL. apply Facilities_entry in HF.
  unfold Facilities_entries in HF.
  repeat (apply elem_of_cons in HF as [[= -> ->]|HF];
          [each_level HL; by vm_compute|]).
  by apply elem_of_nil in HF.
Qed.

Lemma LOG_FAC_LOG_MAKEPRI_drops_high_bit_witness :
  LOG_PRI (LOG_MAKEPRI LOG_LOCAL0 3) = 3
  ∧ LOG_FAC (LOG_MAKEPRI LOG_LOCAL0 3) = LOG_KERN.
Proof.
  apply (LOG_FAC_LOG_MAKEPRI_drops_high_bit LOG_LOCAL0 "local0" 3);
    [reflexivity | lia].
Defined.

(** ** The getter of the threshold *)

Lemma Logger_Priority_LOG_UPTO (lg : log_Logger) (L : Level) :
  0 ≤ L ≤ 7 →
  WithPriority.Logger_Priority (mkLogger lg (LOG_UPTO L)) = L + 1.
Proof.
  intros HL. unfold WithPriority.Logger_Priority; simpl upto.
  each_level HL; by vm_compute.
Qed.

(** C2.  For every level L in 0..7, [Priority] on a logger whose mask is
    [LOG_UPTO L] returns L + 1, not L: it counts the L + 1 trailing one bits
    of the mask. *)
Theorem Priority_of_LOG_UPTO_is_successor
    (l : Logger) (out : Writer) (prefix : string) (flag : Z) (L : Level) :
  0 ≤ L ≤ 7 →
  WithPriority.Logger_Priority (WithPriority.NewLogger out prefix flag L) = L + 1
  ∧ WithPriority.Logger_Priority (WithPriority.Logger_SetPriority l L) = L + 1
  ∧ WithPriority.Priority (WithPriority.SetPriority l L) = L + 1.
Proof.
  intros HL. repeat split; by apply Logger_Priority_LOG_UPTO.
Qed.

Lemma Priority_of_LOG_UPTO_is_successor_witness :
  WithPriority.Logger_Priority (WithPriority.NewLogger os_Stderr "" 0 3) = 4
  ∧ WithPriority.Logger_Priority
      (WithPriority.Logger_SetPriority WithPriority.std_initial 3) = 4
  ∧ WithPriority.Priority
      (WithPriority.SetPriority WithPriority.std_initial 3) = 4.
Proof.
  apply (Priority_of_LOG_UPTO_is_successor WithPriority.std_initial os_Stderr "" 0 3).
  lia.
Defined.

(** ** The runnable formatter obeys the laws *)

Lemma string_app_nil_r (s : string) : s +:+ "" = s.
Proof.
  induction s as [|c s IH]; [done|].
  change (String c (s +:+ "") = String c s). by rewrite IH.
Qed.

Lemma render_literal (lit format : string) (v : list Run.GoValue) :
  percent_free lit = true →
  Run.render (lit +:+ format) v = lit +:+ Run.render format v.
Proof.
  induction lit as [|c lit IH]; intros Hfree; [done|].
  change (String c lit +:+ format) with (String c (lit +:+ format)).
  change (String c lit +:+ Run.render format v)
    with (String c (lit +:+ Run.render format v)).
  simpl in Hfree. simpl Run.render.
  destruct (Ascii.eqb c "%"); [done|].
  by rewrite IH.
Qed.

Lemma render_string (a : string) : Run.render "%s" [Run.GoString a] = a.
Proof. simpl. unfold Run.verb. simpl. apply string_app_nil_r. Qed.

#[global] Instance Run_fmt_laws : FmtLaws (H := Run.fmt).
Proof.
  split.
  - apply render_literal.
  - intros a b. simpl. unfold Run.verb; simpl.
    by rewrite string_app_nil_r.
  - intros lit a Hfree. simpl Sprintf. simpl VString.
    by rewrite render_literal, render_string.
Qed.

(** ** Emission *)

Section Emission.
Context {F : Fmt}.

Lemma guarded_pass (mask : Z) (prio : Level) (body : M unit) :
  Z.land mask (LOG_MASK prio) ≠ 0 → guarded mask prio body = body.
Proof.
  intros Hne. unfold guarded.
  by destruct (Z.eqb_spec (Z.land mask (LOG_MASK prio)) 0).
Qed.

Lemma Logger_emit_unfold (s : Severity) (l : Logger) format v :
  WithPriority.Logger_emit s l format v
  = guarded (upto l) (sev_level s)
      (WithPriority.Logger_printf l format (sev_level s) v).
Proof. by destruct s. Qed.

Lemma emit_unfold (s : Severity) (std : Logger) format v :
  WithPriority.emit s std format v
  = guarded (upto std) (sev_level s)
      (WithPriority.Logger_printf std format (sev_level s) v).
Proof. by destruct s. Qed.

Lemma Logger_emit_unfold_SetLevel (s : Severity) (l : Logger) format v :
  WithSetLevel.Logger_emit s l format v
  = guarded (upto l) (sev_level s)
      (WithSetLevel.Logger_printf l format (sev_level s) v).
Proof. by destruct s. Qed.

Lemma emit_unfold_SetLevel (s : Severity) (p : WithSetLevel.Pkg) format v :
  WithSetLevel.emit s p format v
  = guarded (WithSetLevel.pkg_upto p) (sev_level s)
      (WithSetLevel.printf p format (sev_level s) v).
Proof. by destruct s. Qed.

Lemma Logger_printf_writes (l : Logger) format prio v :
  writes_to (log_out (logger l)) (WithPriority.Logger_printf l format prio v).
Proof. intros t. eexists. split; [|reflexivity]. done. Qed.

Lemma Logger_printf_writes_SetLevel (l : Logger) format prio v :
  writes_to (log_out (logger l)) (WithSetLevel.Logger_printf l format prio v).
Proof. intros t. eexists. split; [|reflexivity]. done. Qed.

Lemma mret_silent : silent (mret ()).
Proof. by intros t. Qed.

(** After the threshold is set to a level L in 0..7, a severity method
    writes when its level is at most L and is silent otherwise. *)
Lemma Logger_emit_after_SetPriority (l : Logger) (L : Level) (s : Severity) format v :
  0 ≤ L ≤ 7 →
  if sev_level s <=? L
  then writes_to (log_out (logger l))
         (WithPriority.Logger_emit s (WithPriority.Logger_SetPriority l L) format v)
  else silent
         (WithPriority.Logger_emit s (WithPriority.Logger_SetPriority l L) format v).
Proof.
  intros HL. rewrite Logger_emit_unfold. simpl upto.
  rewrite guarded_LOG_UPTO by done.
  destruct (sev_level s <=? L).
  - apply (Logger_printf_writes (WithPriority.Logger_SetPriority l L)).
  - apply mret_silent.
Qed.

Lemma Logger_emit_after_SetLevel (l : Logger) (L : Level) (s : Severity) format v :
  0 ≤ L ≤ 7 →
  if sev_level s <=? L
  then writes_to (log_out (logger l))
         (WithSetLevel.Logger_emit s (WithSetLevel.Logger_SetLevel l L) format v)
  else silent
         (WithSetLevel.Logger_emit s (WithSetLevel.Logger_SetLevel l L) format v).
Proof.
  intros HL. rewrite Logger_emit_unfold_SetLevel. simpl upto.
  rewrite guarded_LOG_UPTO by done.
  destruct (sev_level s <=? L).
  - apply (Logger_printf_writes_SetLevel (WithSetLevel.Logger_SetLevel l L)).
  - apply mret_silent.
Qed.

(** C1.  For every level L in 0..7, after [SetPriority L] (or [SetLevel L]
    in the other revision) on a logger, the severity method of level L
    writes to the sink, the one of level L + 1 does nothing, and every one
    of a level below L writes to the sink. *)
Theorem threshold_then_emit (l : Logger) (L : Level) (s : Severity) format v :
  0 ≤ L ≤ 7 →
  let lP := WithPriority.Logger_SetPriority l L in
  let lS := WithSetLevel.Logger_SetLevel l L in
  let out := log_out (logger l) in
  (sev_level s = L →
     writes_to out (WithPriority.Logger_emit s lP format v)
     ∧ writes_to out (WithSetLevel.Logger_emit s lS format v))
  ∧ (sev_level s = L + 1 →
     silent (WithPriority.Logger_emit s lP format v)
     ∧ silent (WithSetLevel.Logger_emit s lS format v))
  ∧ (sev_level s < L →
     writes_to out (WithPriority.Logger_emit s lP format v)
     ∧ writes_to out (WithSetLevel.Logger_emit s lS format v)).
Proof.
  intros HL lP lS out.
  pose proof (Logger_emit_after_SetPriority l L s format v HL) as HP.
  pose proof (Logger_emit_after_SetLevel l L s format v HL) as HS.
  destruct (Z.leb_spec (sev_level s) L) as [Hle|Hgt];
    repeat split; intros; done || lia.
Qed.

End Emission.

Lemma threshold_then_emit_witness :
  let l := WithPriority.NewLogger os_Stderr "" log_LstdFlags LOG_ERR in
  let lP := WithPriority.Logger_SetPriority l 5 in
  let lS := WithSetLevel.Logger_SetLevel l 5 in
  let v := [Run.GoInt 7] in
  (writes_to os_Stderr (WithPriority.Logger_emit SevNotice lP "n=%d" v)
   ∧ writes_to os_Stderr (WithSetLevel.Logger_emit SevNotice lS "n=%d" v))
  ∧ (silent (WithPriority.Logger_emit SevInfo lP "n=%d" v)
     ∧ silent (WithSetLevel.Logger_emit SevInfo lS "n=%d" v))
  ∧ (writes_to os_Stderr (WithPriority.Logger_emit SevCrit lP "n=%d" v)
     ∧ writes_to os_Stderr (WithSetLevel.Logger_emit SevCrit lS "n=%d" v)).
Proof.
  intros l lP lS v.
  assert (0 ≤ 5 ≤ 7) as H5 by lia.
  split; [|split].
  - apply (proj1 (threshold_then_emit (F := Run.fmt) l 5 SevNotice "n=%d" v H5)).
    reflexivity.
  - apply (proj1 (proj2 (threshold_then_emit (F := Run.fmt) l 5 SevInfo "n=%d" v H5))).
    reflexivity.
  - apply (proj2 (proj2 (threshold_then_emit (F := Run.fmt) l 5 SevCrit "n=%d" v H5))).
    reflexivity.
Defined.

(** ** The text of a line *)

Lemma string_app_assoc (a b c : string) : (a +:+ b) +:+ c = a +:+ b +:+ c.
Proof.
  induction a as [|x a IH]; [done|].
  change (String x ((a +:+ b) +:+ c) = String x (a +:+ b +:+ c)).
  by rewrite IH.
Qed.

Lemma percent_free_app (a b : string) :
  percent_free (a +:+ b) = percent_free a && percent_free b.
Proof.
  induction a as [|x a IH]; [done|].
  change (percent_free (String x (a +:+ b))
          = percent_free (String x a) && percent_free b).
  simpl. rewrite IH. by destruct (Ascii.eqb x "%").
Qed.

(** Every severity has a name in [Levels], and no name holds a verb. *)
Lemma Levels_at_severity (s : Severity) :
  ∃ name, Levels !! sev_level s = Some name
          ∧ Levels_at (sev_level s) = name
          ∧ percent_free name = true.
Proof. destruct s; eexists; repeat split; reflexivity. Qed.

Section Rendering.
Context {F : Fmt} {FL : FmtLaws}.

Lemma Sprintf_tagged (tag format : string) (v : list Value) :
  percent_free tag = true →
  Sprintf (Sprintf "[%s] %s" [VString tag; VString format]) v
  = "[" +:+ tag +:+ "] " +:+ Sprintf format v.
Proof.
  intros Hfree. rewrite Sprintf_tag.
  rewrite <- (string_app_assoc tag "] " format).
  rewrite <- (string_app_assoc "[" (tag +:+ "] ") format).
  rewrite Sprintf_literal.
  - by rewrite !string_app_assoc.
  - by rewrite !percent_free_app, Hfree.
Qed.

Lemma Sprintf_fixed_tag (tag format : string) (v : list Value) :
  percent_free tag = true →
  Sprintf (Sprintf (tag +:+ "%s") [VString format]) v = tag +:+ Sprintf format v.
Proof.
  intros Hfree. by rewrite Sprintf_string, Sprintf_literal.
Qed.

(** C7.  For every severity whose bit is in the mask, every format string
    and every argument list, the text handed to the sink is
    "[<levelname>] <message>": the name of the severity in [Levels] in
    brackets, a space, and the arguments substituted into the format. *)
Theorem emitted_line_shape
    (s : Severity) (lg : log_Logger) (mask : Z) (format : string)
    (v : list Value) (t : Trace) :
  Z.land mask (LOG_MASK (sev_level s)) ≠ 0 →
  ∃ name, Levels !! sev_level s = Some name ∧
    let text := "[" +:+ name +:+ "] " +:+ Sprintf format v in
    WithPriority.Logger_emit s (mkLogger lg mask) format v t
      = (Returns (), t ++ [EvWrite (line_of lg 3 text)])
    ∧ WithPriority.emit s (mkLogger lg mask) format v t
      = (Returns (), t ++ [EvWrite (line_of lg 3 text)])
    ∧ WithSetLevel.Logger_emit s (mkLogger lg mask) format v t
      = (Returns (), t ++ [EvWrite (line_of lg 2 text)])
    ∧ WithSetLevel.emit s (WithSetLevel.mkPkg lg mask) format v t
      = (Returns (), t ++ [EvWrite (line_of lg 2 text)]).
Proof.
  intros Hpass.
  destruct (Levels_at_severity s) as (name & Hname & Hat & Hfree).
  exists name. split; [done|]. intros text.
  rewrite Logger_emit_unfold, emit_unfold, Logger_emit_unfold_SetLevel,
    emit_unfold_SetLevel.
  simpl upto. simpl WithSetLevel.pkg_upto.
  rewrite !guarded_pass by done.
  unfold WithPriority.Logger_printf, WithSetLevel.Logger_printf,
    WithSetLevel.printf, log_Printf, log_Output, line_of.
  rewrite Hat, Sprintf_tagged by done.
  done.
Qed.

(** What [Panic] and [Fatal] do, whatever the mask. *)
Lemma Logger_Panic_run (l : Logger) format v t :
  let msg := "[panic] " +:+ Sprintf format v in
  WithPriority.Logger_Panic l format v t
  = (Panics msg, t ++ [EvWrite (line_of (logger l) 3 msg); EvPanic msg]).
Proof.
  intros msg. unfold WithPriority.Logger_Panic, log_Output, panic, line_of.
  rewrite Sprintf_literal by done. fold msg.
  unfold mbind, M_bind. by rewrite <- app_assoc.
Qed.

Lemma Logger_Fatal_run (l : Logger) format v t :
  let msg := "[fatal] " +:+ Sprintf format v in
  WithPriority.Logger_Fatal l format v t
  = (Exits 1, t ++ [EvWrite (line_of (logger l) 3 msg); EvExit 1]).
Proof.
  intros msg. unfold WithPriority.Logger_Fatal, log_Output, os_Exit, line_of.
  rewrite Sprintf_literal by done. fold msg.
  unfold mbind, M_bind. by rewrite <- app_assoc.
Qed.

Lemma log_Panicf_run (lg : log_Logger) format v t :
  let msg := "[panic] " +:+ Sprintf format v in
  log_Panicf lg (Sprintf "[panic] %s" [VString format]) v t
  = (Panics msg, t ++ [EvWrite (line_of lg 2 msg); EvPanic msg]).
Proof.
  intros msg. unfold log_Panicf, log_Output, panic, line_of.
  rewrite (Sprintf_fixed_tag "[panic] ") by done. fold msg.
  unfold mbind, M_bind. by rewrite <- app_assoc.
Qed.

Lemma log_Fatalf_run (lg : log_Logger) format v t :
  let msg := "[fatal] " +:+ Sprintf format v in
  log_Fatalf lg (Sprintf "[fatal] %s" [VString format]) v t
  = (Exits 1, t ++ [EvWrite (line_of lg 2 msg); EvExit 1]).
Proof.
  intros msg. unfold log_Fatalf, log_Output, os_Exit, line_of.
  rewrite (Sprintf_fixed_tag "[fatal] ") by done. fold msg.
  unfold mbind, M_bind. by rewrite <- app_assoc.
Qed.

(** C5.  Whatever the mask of the logger, that of threshold 0 included,
    [Fatal] and [Panic] render the format with the arguments and write the
    line to the sink; the mask has no part in the result. *)
Theorem Fatal_and_Panic_bypass_mask
    (lg : log_Logger) (mask : Z) (format : string) (v : list Value) (t : Trace) :
  let fatal := "[fatal] " +:+ Sprintf format v in
  let panicked := "[panic] " +:+ Sprintf format v in
  WithPriority.Logger_Fatal (mkLogger lg mask) format v t
    = (Exits 1, t ++ [EvWrite (line_of lg 3 fatal); EvExit 1])
  ∧ WithPriority.Logger_Panic (mkLogger lg mask) format v t
    = (Panics panicked, t ++ [EvWrite (line_of lg 3 panicked); EvPanic panicked])
  ∧ WithPriority.Fatal (mkLogger lg mask) format v t
    = (Exits 1, t ++ [EvWrite (line_of lg 3 fatal); EvExit 1])
  ∧ WithPriority.Panic (mkLogger lg mask) format v t
    = (Panics panicked, t ++ [EvWrite (line_of lg 3 panicked); EvPanic panicked])
  ∧ WithSetLevel.Logger_Fatal (mkLogger lg mask) format v t
    = (Exits 1, t ++ [EvWrite (line_of lg 2 fatal); EvExit 1])
  ∧ WithSetLevel.Logger_Panic (mkLogger lg mask) format v t
    = (Panics panicked, t ++ [EvWrite (line_of lg 2 panicked); EvPanic panicked]).
Proof.
  intros fatal panicked.
  pose proof (Logger_Fatal_run (mkLogger lg mask) format v t) as HF.
  pose proof (Logger_Panic_run (mkLogger lg mask) format v t) as HP.
  pose proof (log_Fatalf_run lg format v t) as HF'.
  pose proof (log_Panicf_run lg format v t) as HP'.
  repeat split; done.
Qed.

(** C6.  For every format string and argument list, [Panic] first writes
    the rendered message, "[panic] " followed by the formatted message, to
    the sink and then raises a panic whose payload is that same message:
    in the trace the write comes before the raise. *)
Theorem Panic_writes_then_raises
    (l : Logger) (format : string) (v : list Value) (t : Trace) :
  ∃ msg, msg = "[panic] " +:+ Sprintf format v
    ∧ WithPriority.Logger_Panic l format v t
      = (Panics msg, t ++ [EvWrite (line_of (logger l) 3 msg)] ++ [EvPanic msg])
    ∧ WithPriority.Panic l format v t
      = (Panics msg, t ++ [EvWrite (line_of (logger l) 3 msg)] ++ [EvPanic msg]).
Proof.
  eexists. split; [reflexivity|].
  split; apply Logger_Panic_run.
Qed.

End Rendering.

Lemma emitted_line_shape_witness :
  ∃ name, Levels !! sev_level SevWarning = Some name ∧
    let lg := log_New os_Stderr "" log_LstdFlags in
    let v := [Run.GoInt 5] in
    let text := "[" +:+ name +:+ "] " +:+ Run.render "x=%d" v in
    WithPriority.Logger_emit SevWarning (mkLogger lg (LOG_UPTO 5)) "x=%d" v []
      = (Returns (), [] ++ [EvWrite (line_of lg 3 text)])
    ∧ WithPriority.emit SevWarning (mkLogger lg (LOG_UPTO 5)) "x=%d" v []
      = (Returns (), [] ++ [EvWrite (line_of lg 3 text)])
    ∧ WithSetLevel.Logger_emit SevWarning (mkLogger lg (LOG_UPTO 5)) "x=%d" v []
      = (Returns (), [] ++ [EvWrite (line_of lg 2 text)])
    ∧ WithSetLevel.emit SevWarning (WithSetLevel.mkPkg lg (LOG_UPTO 5)) "x=%d" v []
      = (Returns (), [] ++ [EvWrite (line_of lg 2 text)]).
Proof.
  apply (emitted_line_shape (FL := Run_fmt_laws) SevWarning
           (log_New os_Stderr "" log_LstdFlags) (LOG_UPTO 5) "x=%d"
           [Run.GoInt 5] []).
  vm_compute. discriminate.
Defined.

Lemma Fatal_and_Panic_bypass_mask_witness :
  let lg := log_New os_Stderr "" log_LstdFlags in
  let l := mkLogger lg (LOG_UPTO 0) in
  let v := [Run.GoString "disk"] in
  WithPriority.Logger_Fatal l "lost %s" v []
    = (Exits 1, [] ++ [EvWrite (line_of lg 3 "[fatal] lost disk"); EvExit 1])
  ∧ WithPriority.Logger_Panic l "lost %s" v []
    = (Panics "[panic] lost disk",
       [] ++ [EvWrite (line_of lg 3 "[panic] lost disk"); EvPanic "[panic] lost disk"])
  ∧ WithPriority.Fatal l "lost %s" v []
    = (Exits 1, [] ++ [EvWrite (line_of lg 3 "[fatal] lost disk"); EvExit 1])
  ∧ WithPriority.Panic l "lost %s" v []
    = (Panics "[panic] lost disk",
       [] ++ [EvWrite (line_of lg 3 "[panic] lost disk"); EvPanic "[panic] lost disk"])
  ∧ WithSetLevel.Logger_Fatal l "lost %s" v []
    = (Exits 1, [] ++ [EvWrite (line_of lg 2 "[fatal] lost disk"); EvExit 1])
  ∧ WithSetLevel.Logger_Panic l "lost %s" v []
    = (Panics "[panic] lost disk",
       [] ++ [EvWrite (line_of lg 2 "[panic] lost disk"); EvPanic "[panic] lost disk"]).
Proof.
  exact (Fatal_and_Panic_bypass_mask (FL := Run_fmt_laws)
           (log_New os_Stderr "" log_LstdFlags) (LOG_UPTO 0) "lost %s"
           [Run.GoString "disk"] []).
Defined.

Lemma Panic_writes_then_raises_witness :
  let l := WithPriority.NewLogger os_Stderr "" log_LstdFlags LOG_EMERG in
  ∃ msg, msg = "[panic] " +:+ Run.render "code %d" [Run.GoInt 2]
    ∧ WithPriority.Logger_Panic l "code %d" [Run.GoInt 2] []
      = (Panics msg, [] ++ [EvWrite (line_of (logger l) 3 msg)] ++ [EvPanic msg])
    ∧ WithPriority.Panic l "code %d" [Run.GoInt 2] []
      = (Panics msg, [] ++ [EvWrite (line_of (logger l) 3 msg)] ++ [EvPanic msg]).
Proof.
  exact (Panic_writes_then_raises (FL := Run_fmt_laws)
           (WithPriority.NewLogger os_Stderr "" log_LstdFlags LOG_EMERG)
           "code %d" [Run.GoInt 2] []).
Defined.

(** ** Start-up of the singleton *)

Lemma Levels_entry (k : Level) (name : string) :
  Levels !! k = Some name ↔ (k, name) ∈ Levels_entries.
Proof.
  unfold Levels. split.
  - apply elem_of_list_to_map_2.
  - apply elem_of_list_to_map_1. by compute_done.
Qed.

(** No two levels share a name. *)
Lemma Levels_names_distinct (k1 k2 : Level) (name : string) :
  Levels !! k1 = Some name → Levels !! k2 = Some name → k1 = k2.
Proof.
  rewrite !Levels_entry. unfold Levels_entries. intros H1 H2.
  repeat (apply elem_of_cons in H1 as [H1|H1];
          [injection H1 as -> ->;
           repeat (apply elem_of_cons in H2 as [H2|H2]; [by simplify_eq|]);
           by apply elem_of_nil in H2|]).
  by apply elem_of_nil in H1.
Qed.

(** The entries a [range] over [Levels] visits, in whatever order. *)
Lemma Levels_range (order : list (Level * string)) (k : Level) (name : string) :
  order ≡ₚ map_to_list Levels → (k, name) ∈ order ↔ Levels !! k = Some name.
Proof. intros ->. apply elem_of_map_to_list. Qed.

Section Startup.
Context {F : Fmt} {S : Strings}.

Lemma init_range_match (s : string) order (std : Logger) (k : Level) (name : string) :
  (k, name) ∈ order →
  ToLower s = name →
  (∀ k', (k', name) ∈ order → k' = k) →
  WithPriority.init_range s order std = WithPriority.SetPriority std k.
Proof.
  intros Hin Hlow. induction order as [|[k0 v0] rest IH]; intros Huniq.
  { by apply elem_of_nil in Hin. }
  simpl. destruct (String.eqb_spec (ToLower s) v0) as [Heq|Hne].
  - f_equal. apply Huniq. rewrite <- Hlow, Heq. apply list_elem_of_here.
  - apply elem_of_cons in Hin as [Hin|Hin]; [congruence|].
    apply IH; [done|]. intros k' Hk'. apply Huniq. by apply list_elem_of_further.
Qed.

Lemma init_range_no_match (s : string) order (std : Logger) :
  (∀ k name, (k, name) ∈ order → ToLower s ≠ name) →
  WithPriority.init_range s order std = std.
Proof.
  induction order as [|[k0 v0] rest IH]; intros Hno; [done|].
  simpl. destruct (String.eqb_spec (ToLower s) v0) as [Heq|Hne].
  - exfalso. apply (Hno k0 v0); [apply list_elem_of_here | done].
  - apply IH. intros k name Hin. apply (Hno k). by apply list_elem_of_further.
Qed.

(** What the package functions of the severities do under the mask of a
    threshold L in 0..7. *)
Lemma emit_at_threshold (std : Logger) (L : Level) (s : Severity) format v :
  0 ≤ L ≤ 7 →
  upto std = LOG_UPTO L →
  if sev_level s <=? L
  then writes_to (log_out (logger std)) (WithPriority.emit s std format v)
  else silent (WithPriority.emit s std format v).
Proof.
  intros HL Hmask. rewrite emit_unfold, Hmask.
  rewrite guarded_LOG_UPTO by done.
  destruct (sev_level s <=? L).
  - apply Logger_printf_writes.
  - apply mret_silent.
Qed.

Lemma init_match (env : option string) order (k : Level) (name : string) :
  order ≡ₚ map_to_list Levels →
  Levels !! k = Some name →
  ToLower (os_Getenv env) = name →
  WithPriority.init env order = WithPriority.SetPriority WithPriority.std_initial k.
Proof.
  intros Horder Hk Hlow. unfold WithPriority.init.
  apply (init_range_match _ _ _ k name); [by apply Levels_range|done|].
  intros k' Hk'. apply (Levels_range order) in Hk'; [|done].
  by apply (Levels_names_distinct k' k name).
Qed.

Lemma init_no_match (env : option string) order :
  order ≡ₚ map_to_list Levels →
  (∀ k name, Levels !! k = Some name → ToLower (os_Getenv env) ≠ name) →
  WithPriority.init env order = WithPriority.std_initial.
Proof.
  intros Horder Hno. unfold WithPriority.init.
  apply init_range_no_match. intros k name Hin.
  apply (Hno k). by apply (Levels_range order).
Qed.

(** The loop of the revision with [SetLevel] has no [break]; as no two
    levels share a name it ends with the same mask. *)
Lemma init_range_SetLevel_cases (s : string) order (u : Z) (k : Level) :
  (∀ k', (k', ToLower s) ∈ order → k' = k) →
  WithSetLevel.init_range s order u = u
  ∨ WithSetLevel.init_range s order u = LOG_UPTO k.
Proof.
  revert u. induction order as [|[k0 v0] rest IH]; intros u Huniq; [by left|].
  simpl. destruct (String.eqb_spec (ToLower s) v0) as [Heq|Hne].
  - assert (k0 = k) as -> by (apply Huniq; rewrite Heq; apply list_elem_of_here).
    right. destruct (IH (LOG_UPTO k)) as [->| ->]; try done.
    intros k' Hk'. apply Huniq. by apply list_elem_of_further.
  - apply IH. intros k' Hk'. apply Huniq. by apply list_elem_of_further.
Qed.

Lemma init_range_SetLevel_match (s : string) order (u : Z) (k : Level) :
  (k, ToLower s) ∈ order →
  (∀ k', (k', ToLower s) ∈ order → k' = k) →
  WithSetLevel.init_range s order u = LOG_UPTO k.
Proof.
  revert u. induction order as [|[k0 v0] rest IH]; intros u Hin Huniq.
  { by apply elem_of_nil in Hin. }
  assert (∀ k', (k', ToLower s) ∈ rest → k' = k) as Hrest.
  { intros k' Hk'. apply Huniq. by apply list_elem_of_further. }
  simpl. destruct (String.eqb_spec (ToLower s) v0) as [Heq|Hne].
  - assert (k0 = k) as -> by (apply Huniq; rewrite Heq; apply list_elem_of_here).
    by destruct (init_range_SetLevel_cases s rest (LOG_UPTO k) k Hrest) as [->| ->].
  - apply elem_of_cons in Hin as [Hin|Hin]; [congruence|]. by apply IH.
Qed.

Lemma init_range_SetLevel_no_match (s : string) order (u : Z) :
  (∀ k name, (k, name) ∈ order → ToLower s ≠ name) →
  WithSetLevel.init_range s order u = u.
Proof.
  revert u. induction order as [|[k0 v0] rest IH]; intros u Hno; [done|].
  simpl. destruct (String.eqb_spec (ToLower s) v0) as [Heq|Hne].
  - exfalso. apply (Hno k0 v0); [apply list_elem_of_here | done].
  - apply IH. intros k name Hin. apply (Hno k). by apply list_elem_of_further.
Qed.

(** Both revisions start with the same mask. *)
Lemma init_revisions_agree (env : option string) order :
  order ≡ₚ map_to_list Levels →
  WithSetLevel.pkg_upto (WithSetLevel.init env order)
  = upto (WithPriority.init env order).
Proof.
  intros Horder.
  destruct (decide (Exists (λ e, e.2 = ToLower (os_Getenv env)) order))
    as [Hex|Hno].
  - apply Exists_exists in Hex as ([k name] & Hin & Hname). simpl in Hname.
    pose proof Hin as Hk. apply (Levels_range order) in Hk; [|done].
    rewrite (init_match env order k name) by done.
    subst name. unfold WithSetLevel.init. simpl.
    apply init_range_SetLevel_match; [done|].
    intros k' Hk'. apply (Levels_range order) in Hk'; [|done].
    by apply (Levels_names_distinct k' k (ToLower (os_Getenv env))).
  - assert (∀ k name, (k, name) ∈ order → ToLower (os_Getenv env) ≠ name) as Hno'.
    { intros k name Hin Heq. apply Hno, Exists_exists. by exists (k, name). }
    rewrite init_no_match.
    + unfold WithSetLevel.init. simpl. by rewrite init_range_SetLevel_no_match.
    + done.
    + intros k name Hk. apply (Hno' k). by apply (Levels_range order).
Qed.

(** C4.  The singleton after package initialisation, for every order in
    which the runtime may enumerate [Levels]: if the lower-cased value of
    GOLOGLEVEL is the name of a level in [Levels], the mask is that of this
    level (for "debug" that of level 7, and all eight severities write); if
    the variable is not set or its lower-cased value is no such name, the
    mask is that of level 3, [LOG_ERR], so that Emerg, Alert, Crit and Error
    write and Warning, Notice, Info and Debug do not. *)
Theorem init_resolves_GOLOGLEVEL
    (env : option string) (order : list (Level * string)) (format : string)
    (v : list Value) :
  order ≡ₚ map_to_list Levels →
  let std := WithPriority.init env order in
  (∀ k name, Levels !! k = Some name → ToLower (os_Getenv env) = name →
     upto std = LOG_UPTO k)
  ∧ (ToLower (os_Getenv env) = "debug" →
     upto std = LOG_UPTO 7
     ∧ ∀ s, writes_to os_Stderr (WithPriority.emit s std format v))
  ∧ ((env = None ∧ ToLower "" = "")
     ∨ (∀ k name, Levels !! k = Some name → ToLower (os_Getenv env) ≠ name) →
     upto std = LOG_UPTO 3
     ∧ ∀ s, if sev_level s <=? LOG_ERR
            then writes_to os_Stderr (WithPriority.emit s std format v)
            else silent (WithPriority.emit s std format v)).
Proof.
  intros Horder std. split; [|split].
  - intros k name Hk Hlow. unfold std.
    by rewrite (init_match env order k name).
  - intros Hlow. unfold std.
    rewrite (init_match env order LOG_DEBUG "debug") by done.
    split; [done|]. intros s.
    pose proof (emit_at_threshold
      (WithPriority.SetPriority WithPriority.std_initial LOG_DEBUG) 7 s format v)
      as Hemit.
    assert ((sev_level s <=? 7) = true) as Hs by (by destruct s).
    rewrite Hs in Hemit. apply Hemit; [lia | done].
  - intros Hno.
    assert (∀ k name, Levels !! k = Some name → ToLower (os_Getenv env) ≠ name)
      as Hno'.
    { destruct Hno as [[-> Hempty]|Hno]; [|done].
      intros k name Hk. simpl. rewrite Hempty. intros <-.
      apply Levels_entry in Hk. unfold Levels_entries in Hk.
      repeat (apply elem_of_cons in Hk as [Hk|Hk]; [done|]).
      by apply elem_of_nil in Hk. }
    unfold std. rewrite init_no_match by done.
    split; [done|]. intros s.
    apply (emit_at_threshold WithPriority.std_initial LOG_ERR s format v);
      [unfold LOG_ERR; lia | done].
Qed.

End Startup.

Lemma init_resolves_GOLOGLEVEL_witness :
  upto (WithPriority.init (Some "DEBUG"%string) (map_to_list Levels)) = LOG_UPTO 7
  ∧ (∀ s, writes_to os_Stderr
       (WithPriority.emit s
          (WithPriority.init (Some "Debug"%string) (map_to_list Levels))
          "n=%d" [Run.GoInt 1]))
  ∧ upto (WithPriority.init None (map_to_list Levels)) = LOG_UPTO 3.
Proof.
  split; [|split].
  - apply (proj1 (init_resolves_GOLOGLEVEL (F := Run.fmt) (S := Run.strs)
             (Some "DEBUG"%string) (map_to_list Levels) "" []
             (reflexivity _)) 7 "debug"%string);
      reflexivity.
  - apply (proj1 (proj2 (init_resolves_GOLOGLEVEL (F := Run.fmt) (S := Run.strs)
             (Some "Debug"%string) (map_to_list Levels) "n=%d" [Run.GoInt 1]
             (reflexivity _)))).
    reflexivity.
  - apply (proj2 (proj2 (init_resolves_GOLOGLEVEL (F := Run.fmt) (S := Run.strs)
             None (map_to_list Levels) "" [] (reflexivity _)))).
    left. split; reflexivity.
Defined.

(** ** The shape of the stored mask *)

Lemma low_run_no_gap (m k : Z) :
  low_run m k →
  ∀ i j, 0 ≤ i ≤ j → j < 64 → Z.testbit m j = true → Z.testbit m i = true.
Proof.
  intros Hrun i j Hij Hj. rewrite !Hrun by lia.
  intros Hjk%Z.ltb_lt. apply Z.ltb_lt. lia.
Qed.

Lemma configured_upto (l : Logger) (T : Level) :
  WithPriority.configured l T → upto l = LOG_UPTO T.
Proof. induction 1; done. Qed.

Section Singleton.
Context {S : Strings}.

Lemma init_range_configured (s : string) order (std : Logger) (T : Level) :
  WithPriority.configured std T →
  ∃ T', WithPriority.configured (WithPriority.init_range s order std) T'.
Proof.
  intros Hstd. induction order as [|[k v] rest IH]; simpl; [by exists T|].
  destruct (String.eqb (ToLower s) v); [|done].
  exists k. by apply (WithPriority.configured_SetPriority std T).
Qed.

(** C8.  A logger made by [NewLogger] and then changed by any sequence of
    setters stores the mask (1 << (T+1)) - 1 of the threshold T it was last
    configured with: a run of low-order one bits from bit 0, without a gap.
    The singleton is such a logger after package initialisation for every
    setting of GOLOGLEVEL, and after every [SetOutput]. *)
Theorem mask_is_contiguous :
  (∀ l T, WithPriority.configured l T →
     upto l = LOG_UPTO T
     ∧ (0 ≤ T ≤ 62 → upto l = Z.shiftl 1 (T + 1) - 1)
     ∧ (∃ k, 0 ≤ k ≤ 64 ∧ low_run (upto l) k)
     ∧ (∀ i j, 0 ≤ i ≤ j → j < 64 →
          Z.testbit (upto l) j = true → Z.testbit (upto l) i = true))
  ∧ (∀ env order, ∃ T, WithPriority.configured (WithPriority.init env order) T)
  ∧ (∀ std out, WithPriority.configured (WithPriority.SetOutput std out)
                  (WithPriority.Priority std)).
Proof.
  split; [|split].
  - intros l T Hcfg. apply configured_upto in Hcfg as ->.
    destruct (LOG_UPTO_low_run T) as (k & Hk & Hrun).
    split; [done|]. split; [apply LOG_UPTO_closed|].
    split; [by exists k|]. by apply (low_run_no_gap _ k).
  - intros env order.
    apply (init_range_configured _ _ _ LOG_ERR).
    apply WithPriority.configured_NewLogger.
  - intros std out. apply WithPriority.configured_NewLogger.
Qed.

End Singleton.

Lemma mask_is_contiguous_witness :
  let l := WithPriority.Logger_SetPrefix
             (WithPriority.Logger_SetPriority
                (WithPriority.NewLogger os_Stderr "" log_LstdFlags LOG_ERR) 5)
             "app: " in
  upto l = LOG_UPTO 5
  ∧ (0 ≤ 5 ≤ 62 → upto l = Z.shiftl 1 (5 + 1) - 1)
  ∧ (∃ k, 0 ≤ k ≤ 64 ∧ low_run (upto l) k)
  ∧ (∀ i j, 0 ≤ i ≤ j → j < 64 →
       Z.testbit (upto l) j = true → Z.testbit (upto l) i = true).
Proof.
  intros l.
  apply (proj1 (mask_is_contiguous (S := Run.strs)) l 5).
  apply (WithPriority.configured_SetPrefix _ 5).
  apply (WithPriority.configured_SetPriority _ LOG_ERR).
  apply WithPriority.configured_NewLogger.
Defined.

(** ** Replacing the output of the singleton *)

Section Output.
Context {F : Fmt}.

(** In the revision with [SetLevel], [SetOutput] keeps the mask. *)
Lemma SetOutput_keeps_upto (p : WithSetLevel.Pkg) (out : Writer) :
  WithSetLevel.pkg_upto (WithSetLevel.SetOutput p out) = WithSetLevel.pkg_upto p.
Proof. reflexivity. Qed.

Lemma SetOutput_after_SetPriority (std : Logger) (L : Level) (out : Writer) :
  0 ≤ L ≤ 7 →
  WithPriority.SetOutput (WithPriority.SetPriority std L) out
  = WithPriority.NewLogger out (WithPriority.Prefix std) (WithPriority.Flags std)
      (L + 1).
Proof.
  intros HL. unfold WithPriority.SetOutput, WithPriority.Priority,
    WithPriority.SetPriority, WithPriority.Logger_SetPriority.
  by rewrite Logger_Priority_LOG_UPTO.
Qed.

(** C9.  [SetOutput] on the singleton does not keep the threshold: for a
    level L in 0..6, after [SetPriority L] and then [SetOutput out] the mask
    is that of level L + 1, so the severity of level L + 1, silent before
    [SetOutput], now writes to the new sink; a severity writes to the new
    sink exactly when its level is at most L + 1. *)
Theorem SetOutput_raises_threshold
    (std : Logger) (L : Level) (out : Writer) (s : Severity) (format : string)
    (v : list Value) :
  0 ≤ L < 7 →
  let before := WithPriority.SetPriority std L in
  let after := WithPriority.SetOutput before out in
  upto after = LOG_UPTO (L + 1)
  ∧ (sev_level s = L + 1 →
     silent (WithPriority.emit s before format v)
     ∧ writes_to out (WithPriority.emit s after format v))
  ∧ (if sev_level s <=? L + 1
     then writes_to out (WithPriority.emit s after format v)
     else silent (WithPriority.emit s after format v)).
Proof.
  intros HL before after.
  assert (after = WithPriority.NewLogger out (WithPriority.Prefix std)
                    (WithPriority.Flags std) (L + 1)) as Hafter.
  { apply SetOutput_after_SetPriority. lia. }
  pose proof (emit_at_threshold before L s format v) as Hbefore.
  pose proof (emit_at_threshold after (L + 1) s format v) as Hemit.
  rewrite Hafter in *. simpl in Hemit.
  split; [done|]. split.
  - intros Hs.
    destruct (Z.leb_spec (sev_level s) L); [lia|].
    destruct (Z.leb_spec (sev_level s) (L + 1)); [|lia].
    split; [apply Hbefore | apply Hemit]; done || lia.
  - destruct (sev_level s <=? L + 1); apply Hemit; done || lia.
Qed.

End Output.

Lemma SetOutput_raises_threshold_witness :
  let before := WithPriority.SetPriority WithPriority.std_initial 3 in
  let after := WithPriority.SetOutput before "app.log" in
  upto after = LOG_UPTO 4
  ∧ silent (WithPriority.emit SevWarning before "n=%d" [Run.GoInt 1])
  ∧ writes_to "app.log" (WithPriority.emit SevWarning after "n=%d" [Run.GoInt 1]).
Proof.
  intros before after.
  assert (0 ≤ 3 < 7) as H3 by lia.
  pose proof (SetOutput_raises_threshold (F := Run.fmt) WithPriority.std_initial
                3 "app.log" SevWarning "n=%d" [Run.GoInt 1] H3) as (Hmask & Hnext & _).
  split; [exact Hmask|]. apply Hnext. reflexivity.
Defined.

(** * Further properties *)

(** ** The mask functions on every [int] *)

Lemma to_uint_negative z : - 2 ^ 63 ≤ z < 0 → to_uint z = z + 2 ^ 64.
Proof.
  intros Hz. unfold to_uint.
  rewrite <- (Z_mod_plus_full z 1 (2 ^ 64)).
  apply Z.mod_small. lia.
Qed.

Lemma wrap64_testbit z n : 0 ≤ n < 64 → Z.testbit (wrap64 z) n = Z.testbit z n.
Proof.
  intros Hn. unfold wrap64.
  rewrite Z.mod_eq by lia.
  replace (z + 2 ^ 63 - 2 ^ 64 * ((z + 2 ^ 63) `div` 2 ^ 64) - 2 ^ 63)
    with (z + - ((z + 2 ^ 63) `div` 2 ^ 64) * 2 ^ 64) by lia.
  rewrite <- (Z.mod_pow2_bits_low _ 64 n) by lia.
  rewrite Z_mod_plus_full.
  apply Z.mod_pow2_bits_low. lia.
Qed.

Lemma sev_level_range (s : Severity) : 0 ≤ sev_level s ≤ 7.
Proof. destruct s; simpl; unfold LOG_EMERG, LOG_ALERT, LOG_CRIT, LOG_ERR,
  LOG_WARNING, LOG_NOTICE, LOG_INFO, LOG_DEBUG; lia. Qed.

Lemma land_pow2 (x n : Z) :
  0 ≤ n → Z.land x (2 ^ n) = if Z.testbit x n then 2 ^ n else 0.
Proof.
  intros Hn. apply Z.bits_inj'. intros i Hi.
  rewrite Z.land_spec.
  destruct (decide (n = i)) as [<-|Hne].
  - rewrite Z.pow2_bits_true by done.
    destruct (Z.testbit x n); [by rewrite Z.pow2_bits_true | by rewrite Z.bits_0].
  - rewrite Z.pow2_bits_false by done.
    rewrite andb_false_r.
    destruct (Z.testbit x n); [by rewrite Z.pow2_bits_false | by rewrite Z.bits_0].
Qed.

Lemma LOG_UPTO_ones (pri : Level) : 0 ≤ pri ≤ 62 → LOG_UPTO pri = Z.ones (pri + 1).
Proof.
  intros Hpri. rewrite LOG_UPTO_closed by done.
  rewrite Z.shiftl_1_l, Z.ones_equiv. lia.
Qed.

Lemma LOG_UPTO_all_ones (pri : Level) :
  is_int pri → pri < -1 ∨ 63 ≤ pri → LOG_UPTO pri = -1.
Proof.
  unfold is_int. intros Hint Hout. unfold LOG_UPTO, shl_int.
  assert (64 ≤ to_uint (to_uint pri + 1)) as Hu.
  { destruct Hout as [Hneg|Hbig].
    - rewrite (to_uint_negative pri) by lia. rewrite to_uint_small; lia.
    - rewrite (to_uint_small pri) by lia. rewrite to_uint_small; lia. }
  destruct (Z.ltb_spec (to_uint (to_uint pri + 1)) 64); [lia | done].
Qed.

Lemma LOG_MASK_pow2 (pri : Level) : 0 ≤ pri ≤ 62 → LOG_MASK pri = 2 ^ pri.
Proof.
  intros Hpri. unfold LOG_MASK, shl_int.
  rewrite to_uint_small by lia.
  destruct (Z.ltb_spec pri 64); [|lia].
  rewrite Z.shiftl_1_l. apply wrap64_small.
  assert (0 < 2 ^ pri ≤ 2 ^ 62); [|lia].
  split; [apply Z.pow_pos_nonneg; lia | apply Z.pow_le_mono_r; lia].
Qed.

(** X1.  [LOG_UPTO] on every [int]: no bit for -1, the bits 0 to pri for a
    priority from 0 to 62, and every bit for any other priority, the
    negative ones below -1 included. *)
Theorem LOG_UPTO_every_int (pri : Level) :
  is_int pri →
  LOG_UPTO pri =
    if pri =? -1 then 0
    else if (0 <=? pri) && (pri <=? 62) then 2 ^ (pri + 1) - 1
    else -1.
Proof.
  intros Hint.
  destruct (Z.eqb_spec pri (-1)) as [->|Hne]; [done|].
  destruct (Z.leb_spec 0 pri), (Z.leb_spec pri 62); simpl.
  - rewrite LOG_UPTO_closed, Z.shiftl_1_l; lia.
  - apply LOG_UPTO_all_ones; [done | lia].
  - apply LOG_UPTO_all_ones; [done | lia].
  - apply LOG_UPTO_all_ones; [done | lia].
Qed.

Lemma LOG_UPTO_every_int_witness : LOG_UPTO (-5) = -1.
Proof.
  apply (LOG_UPTO_every_int (-5)). unfold is_int. lia.
Defined.

(** X2.  [LOG_MASK] on every [int]: the single bit pri for a priority from
    0 to 62, the sign bit alone for 63, and no bit at all for a negative
    priority or one of 64 and more. *)
Theorem LOG_MASK_every_int (pri : Level) :
  is_int pri →
  LOG_MASK pri =
    if (0 <=? pri) && (pri <=? 62) then 2 ^ pri
    else if pri =? 63 then - 2 ^ 63
    else 0.
Proof.
  unfold is_int. intros Hint.
  destruct (Z.leb_spec 0 pri), (Z.leb_spec pri 62); simpl.
  - by apply LOG_MASK_pow2.
  - destruct (Z.eqb_spec pri 63) as [->|Hne]; [done|].
    unfold LOG_MASK, shl_int. rewrite to_uint_small by lia.
    destruct (Z.ltb_spec pri 64); [lia | done].
  - destruct (Z.eqb_spec pri 63); [lia|].
    unfold LOG_MASK, shl_int. rewrite to_uint_negative by lia.
    destruct (Z.ltb_spec (pri + 2 ^ 64) 64); [lia | done].
  - lia.
Qed.

Lemma LOG_MASK_every_int_witness : LOG_MASK (-1) = 0.
Proof.
  apply (LOG_MASK_every_int (-1)). unfold is_int. lia.
Defined.

(** X3.  For priorities from 0 to 62: the mask up to L holds the bit of S
    exactly when S is at most L, and the mask up to a lower priority lies
    within the mask up to a higher one. *)
Theorem LOG_UPTO_LOG_MASK_meet (L S : Level) :
  0 ≤ L ≤ 62 → 0 ≤ S ≤ 62 →
  Z.land (LOG_UPTO L) (LOG_MASK S) = (if S <=? L then LOG_MASK S else 0)
  ∧ (S ≤ L → Z.land (LOG_UPTO S) (LOG_UPTO L) = LOG_UPTO S).
Proof.
  intros HL HS. rewrite !LOG_UPTO_ones, LOG_MASK_pow2 by done. split.
  - rewrite land_pow2, Z.testbit_ones by lia.
    destruct (Z.leb_spec 0 S); [|lia].
    by destruct (Z.ltb_spec S (L + 1)), (Z.leb_spec S L); try lia.
  - intros Hle. rewrite Z.land_ones by lia.
    apply Z.mod_small. rewrite Z.ones_equiv.
    assert (0 < 2 ^ (S + 1) ≤ 2 ^ (L + 1)); [|lia].
    split; [apply Z.pow_pos_nonneg; lia | apply Z.pow_le_mono_r; lia].
Qed.

Lemma LOG_UPTO_LOG_MASK_meet_witness :
  Z.land (LOG_UPTO 20) (LOG_MASK 9) = LOG_MASK 9
  ∧ (9 ≤ 20 → Z.land (LOG_UPTO 9) (LOG_UPTO 20) = LOG_UPTO 9).
Proof.
  apply (LOG_UPTO_LOG_MASK_meet 20 9); lia.
Defined.

(** ** Filtering under any threshold *)

(** The test of a severity method against the mask of any priority. *)
Lemma mask_test_int (pri : Level) (s : Severity) :
  is_int pri →
  negb (Z.land (LOG_UPTO pri) (LOG_MASK (sev_level s)) =? 0)
  = (pri <? -1) || (sev_level s <=? pri).
Proof.
  intros Hint. pose proof (sev_level_range s) as Hs.
  rewrite (LOG_MASK_pow2 (sev_level s)) by lia.
  assert (2 ^ sev_level s ≠ 0) as Hpow.
  { apply Z.pow_nonzero; lia. }
  destruct (decide (pri = -1)) as [->|Hne].
  { change (LOG_UPTO (-1)) with 0. rewrite Z.land_0_l. simpl.
    by destruct (Z.leb_spec (sev_level s) (-1)); [lia|]. }
  destruct (decide (0 ≤ pri ≤ 62)) as [Hin|Hout].
  - rewrite LOG_UPTO_ones, land_pow2, Z.testbit_ones by lia.
    destruct (Z.ltb_spec pri (-1)); [lia|].
    destruct (Z.leb_spec 0 (sev_level s)); [|lia].
    destruct (Z.ltb_spec (sev_level s) (pri + 1)),
      (Z.leb_spec (sev_level s) pri); try lia; simpl.
    + by destruct (Z.eqb_spec (2 ^ sev_level s) 0).
    + done.
  - rewrite LOG_UPTO_all_ones by (done || lia).
    rewrite Z.land_m1_l.
    destruct (Z.eqb_spec (2 ^ sev_level s) 0); [done|]. simpl.
    destruct (Z.ltb_spec pri (-1)); [done|].
    destruct (Z.leb_spec (sev_level s) pri); [done | lia].
Qed.

Lemma guarded_LOG_UPTO_int (pri : Level) (s : Severity) (body : M unit) :
  is_int pri →
  guarded (LOG_UPTO pri) (sev_level s) body
  = if (pri <? -1) || (sev_level s <=? pri) then body else mret ().
Proof. intros Hint. unfold guarded. by rewrite mask_test_int. Qed.

Section AnyThreshold.
Context {F : Fmt}.

Lemma printf_writes_SetLevel (p : WithSetLevel.Pkg) format prio v :
  writes_to (log_out (WithSetLevel.log_std p)) (WithSetLevel.printf p format prio v).
Proof. intros t. eexists. split; [|reflexivity]. done. Qed.

Lemma Logger_emit_under (lg : log_Logger) (pri : Level) (s : Severity) format v :
  is_int pri →
  if (pri <? -1) || (sev_level s <=? pri)
  then writes_to (log_out lg)
         (WithPriority.Logger_emit s (mkLogger lg (LOG_UPTO pri)) format v)
  else silent (WithPriority.Logger_emit s (mkLogger lg (LOG_UPTO pri)) format v).
Proof.
  intros Hint. rewrite Logger_emit_unfold. simpl upto.
  rewrite guarded_LOG_UPTO_int by done.
  destruct ((pri <? -1) || (sev_level s <=? pri)).
  - apply (Logger_printf_writes (mkLogger lg (LOG_UPTO pri))).
  - apply mret_silent.
Qed.

Lemma Logger_emit_under_SetLevel (lg : log_Logger) (pri : Level) (s : Severity) format v :
  is_int pri →
  if (pri <? -1) || (sev_level s <=? pri)
  then writes_to (log_out lg)
         (WithSetLevel.Logger_emit s (mkLogger lg (LOG_UPTO pri)) format v)
  else silent (WithSetLevel.Logger_emit s (mkLogger lg (LOG_UPTO pri)) format v).
Proof.
  intros Hint. rewrite Logger_emit_unfold_SetLevel. simpl upto.
  rewrite guarded_LOG_UPTO_int by done.
  destruct ((pri <? -1) || (sev_level s <=? pri)).
  - apply (Logger_printf_writes_SetLevel (mkLogger lg (LOG_UPTO pri))).
  - apply mret_silent.
Qed.

Lemma emit_under (lg : log_Logger) (pri : Level) (s : Severity) format v :
  is_int pri →
  if (pri <? -1) || (sev_level s <=? pri)
  then writes_to (log_out lg)
         (WithPriority.emit s (mkLogger lg (LOG_UPTO pri)) format v)
  else silent (WithPriority.emit s (mkLogger lg (LOG_UPTO pri)) format v).
Proof.
  intros Hint. rewrite emit_unfold. simpl upto.
  rewrite guarded_LOG_UPTO_int by done.
  destruct ((pri <? -1) || (sev_level s <=? pri)).
  - apply (Logger_printf_writes (mkLogger lg (LOG_UPTO pri))).
  - apply mret_silent.
Qed.

Lemma emit_under_SetLevel (lg : log_Logger) (pri : Level) (s : Severity) format v :
  is_int pri →
  if (pri <? -1) || (sev_level s <=? pri)
  then writes_to (log_out lg)
         (WithSetLevel.emit s (WithSetLevel.mkPkg lg (LOG_UPTO pri)) format v)
  else silent (WithSetLevel.emit s (WithSetLevel.mkPkg lg (LOG_UPTO pri)) format v).
Proof.
  intros Hint. rewrite emit_unfold_SetLevel. simpl WithSetLevel.pkg_upto.
  rewrite guarded_LOG_UPTO_int by done.
  destruct ((pri <? -1) || (sev_level s <=? pri)).
  - apply (printf_writes_SetLevel (WithSetLevel.mkPkg lg (LOG_UPTO pri))).
  - apply mret_silent.
Qed.

(** X4.  A logger made by [NewLogger] with any priority, or set to any
    priority by [SetPriority] / [SetLevel], passes a severity method
    exactly when the priority is below -1 or at least the level of the
    method: priority -1 silences all eight methods, a priority of 7 or more
    lets all eight write, and so does every priority below -1. *)
Theorem methods_under_any_priority
    (l : Logger) (out : Writer) (prefix : string) (flag : Z) (pri : Level)
    (s : Severity) (format : string) (v : list Value) :
  is_int pri →
  let passes := (pri <? -1) || (sev_level s <=? pri) in
  (if passes
   then writes_to out
          (WithPriority.Logger_emit s (WithPriority.NewLogger out prefix flag pri) format v)
        ∧ writes_to out
          (WithSetLevel.Logger_emit s (WithSetLevel.NewLogger out prefix flag pri) format v)
        ∧ writes_to (log_out (logger l))
          (WithPriority.Logger_emit s (WithPriority.Logger_SetPriority l pri) format v)
        ∧ writes_to (log_out (logger l))
          (WithSetLevel.Logger_emit s (WithSetLevel.Logger_SetLevel l pri) format v)
   else silent
          (WithPriority.Logger_emit s (WithPriority.NewLogger out prefix flag pri) format v)
        ∧ silent
          (WithSetLevel.Logger_emit s (WithSetLevel.NewLogger out prefix flag pri) format v)
        ∧ silent
          (WithPriority.Logger_emit s (WithPriority.Logger_SetPriority l pri) format v)
        ∧ silent
          (WithSetLevel.Logger_emit s (WithSetLevel.Logger_SetLevel l pri) format v)).
Proof.
  intros Hint passes.
  pose proof (Logger_emit_under (log_New out prefix flag) pri s format v Hint) as H1.
  pose proof (Logger_emit_under_SetLevel (log_New out prefix flag) pri s format v Hint) as H2.
  pose proof (Logger_emit_under (logger l) pri s format v Hint) as H3.
  pose proof (Logger_emit_under_SetLevel (logger l) pri s format v Hint) as H4.
  unfold passes. by destruct ((pri <? -1) || (sev_level s <=? pri)).
Qed.

(** X5.  The package functions of the severities under any priority set by
    the package's [SetPriority] (the singleton) or [SetLevel] (the package
    variable): a function writes exactly when the priority is below -1 or
    at least its level. *)
Theorem package_functions_under_any_priority
    (std : Logger) (p : WithSetLevel.Pkg) (pri : Level) (s : Severity)
    (format : string) (v : list Value) :
  is_int pri →
  let passes := (pri <? -1) || (sev_level s <=? pri) in
  (if passes
   then writes_to (log_out (logger std))
          (WithPriority.emit s (WithPriority.SetPriority std pri) format v)
        ∧ writes_to (log_out (WithSetLevel.log_std p))
          (WithSetLevel.emit s (WithSetLevel.SetLevel p pri) format v)
   else silent (WithPriority.emit s (WithPriority.SetPriority std pri) format v)
        ∧ silent (WithSetLevel.emit s (WithSetLevel.SetLevel p pri) format v)).
Proof.
  intros Hint passes.
  pose proof (emit_under (logger std) pri s format v Hint) as H1.
  pose proof (emit_under_SetLevel (WithSetLevel.log_std p) pri s format v Hint) as H2.
  unfold passes. by destruct ((pri <? -1) || (sev_level s <=? pri)).
Qed.

(** X6.  In the revision with [SetLevel], [SetOutput] keeps the threshold
    and redirects: a package function that wrote before writes to the new
    writer, with the prefix and flags as they were, and one that was silent
    stays silent. *)
Theorem SetOutput_keeps_threshold
    (p : WithSetLevel.Pkg) (out : Writer) (s : Severity) (format : string)
    (v : list Value) (t : Trace) :
  let p' := WithSetLevel.SetOutput p out in
  WithSetLevel.pkg_upto p' = WithSetLevel.pkg_upto p
  ∧ match WithSetLevel.emit s p format v t with
    | (Returns (), t') =>
        (t' = t ∧ WithSetLevel.emit s p' format v t = (Returns (), t))
        ∨ (∃ ln, t' = t ++ [EvWrite ln]
             ∧ WithSetLevel.emit s p' format v t
               = (Returns (), t ++ [EvWrite
                    (mkLine out (line_prefix ln) (line_flag ln)
                       (line_calldepth ln) (line_text ln))]))
    | _ => False
    end.
Proof.
  intros p'. split; [done|].
  rewrite !emit_unfold_SetLevel. unfold p'. simpl WithSetLevel.pkg_upto.
  unfold guarded.
  destruct (negb (Z.land (WithSetLevel.pkg_upto p) (LOG_MASK (sev_level s)) =? 0)).
  - right. eexists. split; reflexivity.
  - left. done.
Qed.

End AnyThreshold.

Lemma methods_under_any_priority_witness :
  silent (WithPriority.Logger_emit SevEmerg
            (WithPriority.NewLogger os_Stderr "" log_LstdFlags (-1)) "n=%d"
            [Run.GoInt 1])
  ∧ silent (WithSetLevel.Logger_emit SevEmerg
              (WithSetLevel.NewLogger os_Stderr "" log_LstdFlags (-1)) "n=%d"
              [Run.GoInt 1])
  ∧ silent (WithPriority.Logger_emit SevEmerg
              (WithPriority.Logger_SetPriority WithPriority.std_initial (-1))
              "n=%d" [Run.GoInt 1])
  ∧ silent (WithSetLevel.Logger_emit SevEmerg
              (WithSetLevel.Logger_SetLevel WithPriority.std_initial (-1))
              "n=%d" [Run.GoInt 1]).
Proof.
  apply (methods_under_any_priority (F := Run.fmt) WithPriority.std_initial
           os_Stderr "" log_LstdFlags (-1) SevEmerg "n=%d" [Run.GoInt 1]).
  unfold is_int. lia.
Defined.

Lemma package_functions_under_any_priority_witness :
  writes_to os_Stderr
    (WithPriority.emit SevDebug
       (WithPriority.SetPriority WithPriority.std_initial (-2)) "n=%d"
       [Run.GoInt 1])
  ∧ writes_to os_Stderr
      (WithSetLevel.emit SevDebug
         (WithSetLevel.SetLevel (WithSetLevel.init None []) (-2)) "n=%d"
         [Run.GoInt 1]).
Proof.
  apply (package_functions_under_any_priority (F := Run.fmt)
           WithPriority.std_initial (WithSetLevel.init None [])
           (-2) SevDebug "n=%d" [Run.GoInt 1]).
  unfold is_int. lia.
Defined.

(** ** Packing and unpacking in general *)

Lemma LOG_PRI_mod (p : Z) : LOG_PRI p = p `mod` 8.
Proof.
  unfold LOG_PRI, LOG_PRIMASK.
  change 7 with (Z.ones 3). by rewrite Z.land_ones.
Qed.

Lemma LOG_FAC_div_mod (p : Z) : LOG_FAC p = (p `div` 8) `mod` 128.
Proof.
  unfold LOG_FAC, LOG_FACMASK.
  rewrite Z.shiftr_land.
  change (Z.shiftr 1016 3) with (Z.ones 7).
  rewrite Z.land_ones, Z.shiftr_div_pow2 by done. done.
Qed.

(** X7.  [LOG_PRI] is the remainder of the combined priority by 8 and
    [LOG_FAC] is the number of the facility, the quotient by 8 reduced
    modulo 128, not a facility constant: the level comes out in 0..7 and
    the facility number in 0..127, for every integer. *)
Theorem LOG_PRI_LOG_FAC_meaning (p : Z) :
  LOG_PRI p = p `mod` 8
  ∧ LOG_FAC p = (p `div` 8) `mod` 128
  ∧ 0 ≤ LOG_PRI p ≤ 7
  ∧ 0 ≤ LOG_FAC p ≤ 127.
Proof.
  rewrite LOG_PRI_mod, LOG_FAC_div_mod.
  pose proof (Z.mod_pos_bound p 8).
  pose proof (Z.mod_pos_bound (p `div` 8) 128).
  repeat split; lia.
Qed.

(** X8.  Unpacking and packing again: for a combined priority p from 0 to
    1023, [LOG_MAKEPRI] applied to the facility number [LOG_FAC p] and the
    level [LOG_PRI p] gives p back. *)
Theorem LOG_MAKEPRI_of_parts (p : Z) :
  0 ≤ p < 1024 → LOG_MAKEPRI (LOG_FAC p) (LOG_PRI p) = p.
Proof.
  intros Hp. rewrite LOG_PRI_mod, LOG_FAC_div_mod.
  assert (0 ≤ p `div` 8 < 128) as Hq.
  { split; [apply Z.div_pos; lia | apply Z.div_lt_upper_bound; lia]. }
  rewrite (Z.mod_small (p `div` 8)) by done.
  pose proof (Z.mod_pos_bound p 8) as Hr.
  unfold LOG_MAKEPRI, shl_int. change (3 <? 64) with true. cbv iota.
  rewrite Z.shiftl_mul_pow2 by done.
  rewrite wrap64_small by lia.
  change (2 ^ 3) with 8.
  pose proof (Z.add_lor_land (p `div` 8 * 8) (p `mod` 8)) as Hsum.
  assert (Z.land (p `div` 8 * 8) (p `mod` 8) = 0) as Hdisjoint.
  { apply Z.bits_inj'. intros n Hn.
    rewrite Z.land_spec, Z.bits_0.
    destruct (decide (n < 3)) as [Hlow|Hhigh].
    - change (p `div` 8 * 8) with (p `div` 8 * 2 ^ 3).
      rewrite <- Z.shiftl_mul_pow2 by done.
      by rewrite Z.shiftl_spec_low.
    - change (p `mod` 8) with (p `mod` 2 ^ 3).
      rewrite (Z.mod_pow2_bits_high p 3 n) by lia.
      apply andb_false_r. }
  rewrite Hdisjoint, Z.add_0_r in Hsum. rewrite Hsum.
  pose proof (Z.div_mod p 8). lia.
Qed.

Lemma LOG_MAKEPRI_of_parts_witness :
  LOG_MAKEPRI (LOG_FAC 187) (LOG_PRI 187) = 187.
Proof. apply (LOG_MAKEPRI_of_parts 187). lia. Defined.

Lemma shifted_facility_low_bits (fac : Facility) (n : Z) :
  0 ≤ n < 3 → Z.testbit (shl_int fac 3) n = false.
Proof.
  intros Hn. unfold shl_int. change (3 <? 64) with true. cbv iota.
  rewrite wrap64_testbit by lia. apply Z.shiftl_spec_low. lia.
Qed.

Lemma shifted_facility_high_bits (fac : Facility) (n : Z) :
  3 ≤ n < 64 → Z.testbit (shl_int fac 3) n = Z.testbit fac (n - 3).
Proof.
  intros Hn. unfold shl_int. change (3 <? 64) with true. cbv iota.
  rewrite wrap64_testbit by lia. apply Z.shiftl_spec_high; lia.
Qed.

(** X9.  Packing and unpacking for every facility value, in the table or
    not: [LOG_PRI] gives back the low three bits of the level, and for a
    level in 0..7 [LOG_FAC] gives back the facility value modulo 128. *)
Theorem LOG_MAKEPRI_unpacked (fac : Facility) (pri : Level) :
  LOG_PRI (LOG_MAKEPRI fac pri) = pri `mod` 8
  ∧ (0 ≤ pri ≤ 7 → LOG_FAC (LOG_MAKEPRI fac pri) = fac `mod` 128).
Proof.
  split.
  - rewrite <- (LOG_PRI_mod pri). unfold LOG_PRI, LOG_MAKEPRI, LOG_PRIMASK.
    apply Z.bits_inj'. intros n Hn.
    rewrite !Z.land_spec, Z.lor_spec.
    destruct (decide (n < 3)) as [Hlow|Hhigh].
    + by rewrite shifted_facility_low_bits by lia.
    + change 7 with (Z.ones 3). rewrite Z.ones_spec_high by lia.
      by rewrite !andb_false_r.
  - intros Hpri.
    change 128 with (2 ^ 7). rewrite <- Z.land_ones by done.
    unfold LOG_FAC, LOG_MAKEPRI, LOG_FACMASK.
    rewrite Z.shiftr_land. change (Z.shiftr 1016 3) with (Z.ones 7).
    apply Z.bits_inj'. intros n Hn.
    rewrite !Z.land_spec, Z.shiftr_spec, Z.lor_spec by done.
    destruct (decide (n < 7)) as [Hlow|Hhigh].
    + rewrite shifted_facility_high_bits by lia.
      replace (n + 3 - 3) with n by lia.
      assert (Z.testbit pri (n + 3) = false) as ->.
      { each_level Hpri; destruct (decide (n + 3 < 3)); try lia;
          apply Z.bits_above_log2; simpl; lia. }
      by rewrite orb_false_r.
    + rewrite Z.ones_spec_high by lia. by rewrite !andb_false_r.
Qed.

Lemma LOG_MAKEPRI_unpacked_witness :
  LOG_FAC (LOG_MAKEPRI 1000 5) = 1000 `mod` 128.
Proof.
  apply (proj2 (LOG_MAKEPRI_unpacked 1000 5)). lia.
Defined.

(** ** What [Priority] counts *)

Lemma interval_as_nat (lo hi z : Z) :
  lo ≤ z ≤ hi → ∃ n : nat, (n ≤ Z.to_nat (hi - lo))%nat ∧ z = lo + Z.of_nat n.
Proof. intros Hz. exists (Z.to_nat (z - lo)). lia. Qed.

Lemma Logger_Priority_LOG_UPTO_int (lg : log_Logger) (pri : Level) :
  is_int pri →
  WithPriority.Logger_Priority (mkLogger lg (LOG_UPTO pri))
  = if (-1 <=? pri) && (pri <=? 30) then pri + 1 else 32.
Proof.
  intros Hint.
  destruct (decide (-1 ≤ pri ≤ 62)) as [Hin|Hout].
  - apply (interval_as_nat (-1) 62) in Hin as (n & Hn & ->).
    do 64 (destruct n as [|n]; [by vm_compute|]).
    simpl in Hn. lia.
  - rewrite LOG_UPTO_all_ones by (done || lia).
    destruct (Z.leb_spec (-1) pri), (Z.leb_spec pri 30); try lia; by vm_compute.
Qed.

(** X10.  [Priority] on the mask of every priority: one more than the
    priority from -1 to 30, and 32 for every other priority, since the
    count is taken on 32 bits. *)
Theorem Priority_of_LOG_UPTO_every_int
    (l : Logger) (out : Writer) (prefix : string) (flag : Z) (pri : Level) :
  is_int pri →
  let counted := if (-1 <=? pri) && (pri <=? 30) then pri + 1 else 32 in
  WithPriority.Logger_Priority (WithPriority.NewLogger out prefix flag pri) = counted
  ∧ WithPriority.Logger_Priority (WithPriority.Logger_SetPriority l pri) = counted
  ∧ WithPriority.Priority (WithPriority.SetPriority l pri) = counted.
Proof.
  intros Hint counted. repeat split; by apply Logger_Priority_LOG_UPTO_int.
Qed.

Lemma Priority_of_LOG_UPTO_every_int_witness :
  WithPriority.Logger_Priority
    (WithPriority.NewLogger os_Stderr "" 0 INTERNAL_NOPRI) = 17
  ∧ WithPriority.Logger_Priority
      (WithPriority.Logger_SetPriority WithPriority.std_initial INTERNAL_NOPRI) = 17
  ∧ WithPriority.Priority
      (WithPriority.SetPriority WithPriority.std_initial INTERNAL_NOPRI) = 17.
Proof.
  apply (Priority_of_LOG_UPTO_every_int WithPriority.std_initial os_Stderr "" 0
           INTERNAL_NOPRI).
  unfold is_int, INTERNAL_NOPRI. lia.
Defined.

Lemma land_odd_complement (h : Z) :
  Z.land (2 * Z.lnot h + 1) (2 * h + 1) = 1.
Proof.
  apply Z.bits_inj'. intros n Hn. rewrite Z.land_spec.
  destruct (decide (n = 0)) as [->|Hpos].
  - by rewrite !Z.testbit_odd_0.
  - rewrite (Z.bits_above_log2 1 n) by (simpl; lia).
    replace n with (Z.succ (n - 1)) by lia.
    rewrite !Z.testbit_odd_succ, Z.lnot_spec by lia.
    by destruct (Z.testbit h (n - 1)).
Qed.

(** [^m & (m + 1)] is the lowest clear bit of [m]. *)
Lemma lowest_clear_bit (m k : Z) :
  is_int m → 0 ≤ k ≤ 62 →
  (∀ i, 0 ≤ i < k → Z.testbit m i = true) →
  Z.testbit m k = false →
  Z.land (Z.lnot m) (wrap64 (m + 1)) = 2 ^ k.
Proof.
  unfold is_int. intros Hint Hk Hones Hclear.
  assert (m `mod` 2 ^ (k + 1) = Z.ones k) as Hlow.
  { apply Z.bits_inj'. intros n Hn.
    destruct (decide (n < k + 1)) as [Hlt|Hge].
    - rewrite Z.mod_pow2_bits_low by lia.
      destruct (decide (n = k)) as [->|Hne].
      + rewrite Hclear. symmetry. apply Z.ones_spec_high. lia.
      + rewrite Hones by lia. symmetry. apply Z.ones_spec_low. lia.
    - rewrite Z.mod_pow2_bits_high by lia.
      symmetry. apply Z.ones_spec_high. lia. }
  assert (m ≠ 2 ^ 63 - 1) as Hmax.
  { intros ->. change (2 ^ 63 - 1) with (Z.ones 63) in Hclear.
    rewrite Z.ones_spec_low in Hclear by lia. done. }
  rewrite wrap64_small by lia.
  set (h := m `div` 2 ^ (k + 1)).
  assert (0 < 2 ^ k) as Hpow by (apply Z.pow_pos_nonneg; lia).
  assert (m + 1 = (2 * h + 1) * 2 ^ k) as Hsucc.
  { pose proof (Z.div_mod m (2 ^ (k + 1))) as Hdm.
    rewrite Hlow, Z.ones_equiv in Hdm. fold h in Hdm.
    rewrite Z.pow_add_r in Hdm by lia. change (2 ^ 1) with 2 in Hdm. lia. }
  assert (Z.lnot m = (2 * Z.lnot h + 1) * 2 ^ k) as Hnot.
  { rewrite !Z.lnot_eq_pred_opp. lia. }
  rewrite Hsucc, Hnot, <- !Z.shiftl_mul_pow2, <- Z.shiftl_land by lia.
  by rewrite land_odd_complement, Z.shiftl_1_l.
Qed.

(** X11.  [Priority] counts the one bits below the lowest clear bit of the
    mask, whatever the bits above it: for a mask whose bits 0 to k-1 are set
    and whose bit k is clear, with k at most 31, it returns k. *)
Theorem Priority_counts_trailing_ones (lg : log_Logger) (m k : Z) :
  is_int m → 0 ≤ k ≤ 31 →
  (∀ i, 0 ≤ i < k → Z.testbit m i = true) →
  Z.testbit m k = false →
  WithPriority.Logger_Priority (mkLogger lg m) = k.
Proof.
  intros Hint Hk Hones Hclear.
  unfold WithPriority.Logger_Priority. simpl upto.
  rewrite (lowest_clear_bit m k) by (done || lia).
  apply (interval_as_nat 0 31) in Hk as (n & Hn & ->).
  do 32 (destruct n as [|n]; [by vm_compute|]).
  simpl in Hn. lia.
Qed.

Lemma Priority_counts_trailing_ones_witness :
  WithPriority.Logger_Priority
    (mkLogger (log_New os_Stderr "" 0) 0xF3) = 2.
Proof.
  apply (Priority_counts_trailing_ones (log_New os_Stderr "" 0) 0xF3 2).
  - unfold is_int. lia.
  - lia.
  - intros i Hi. assert (i = 0 ∨ i = 1) as [-> | ->] by lia; reflexivity.
  - reflexivity.
Defined.

(** ** The package functions of the revision with [SetLevel], and the sink *)

Section Sink.
Context {F : Fmt} {FL : FmtLaws}.

(** X12.  In the revision with [SetLevel], the package functions [Fatal]
    and [Panic] write "[fatal] " or "[panic] " followed by the formatted
    message through the standard logger of [log] and then exit with status
    1 or panic with the message, whatever the package variable [upto]
    holds. *)
Theorem package_Fatal_and_Panic_bypass_upto
    (lg : log_Logger) (mask : Z) (format : string) (v : list Value) (t : Trace) :
  let fatal := "[fatal] " +:+ Sprintf format v in
  let panicked := "[panic] " +:+ Sprintf format v in
  WithSetLevel.Fatal (WithSetLevel.mkPkg lg mask) format v t
    = (Exits 1, t ++ [EvWrite (line_of lg 2 fatal); EvExit 1])
  ∧ WithSetLevel.Panic (WithSetLevel.mkPkg lg mask) format v t
    = (Panics panicked, t ++ [EvWrite (line_of lg 2 panicked); EvPanic panicked]).
Proof.
  intros fatal panicked. split.
  - apply log_Fatalf_run.
  - apply log_Panicf_run.
Qed.

Lemma Logger_printf_line (l : Logger) (s : Severity) format v t :
  ∃ name, Levels !! sev_level s = Some name ∧
    WithPriority.Logger_printf l format (sev_level s) v t
    = (Returns (),
       t ++ [EvWrite (line_of (logger l) 3
                        ("[" +:+ name +:+ "] " +:+ Sprintf format v))]).
Proof.
  destruct (Levels_at_severity s) as (name & Hname & Hat & Hfree).
  exists name. split; [done|].
  unfold WithPriority.Logger_printf, log_Output, line_of.
  by rewrite Hat, Sprintf_tagged.
Qed.

(** X13.  The settings of the sink reach the line: after [SetPrefix],
    [SetFlags] and [SetOutput] on the singleton, a package function that
    passes the mask hands the new writer a line with that prefix and those
    flags; and on a logger [SetPrefix] and [SetFlags] leave the mask as it
    is, so they change what a line carries and never whether it is
    written. *)
Theorem sink_settings_reach_the_line
    (std : Logger) (prefix : string) (flag : Z) (out : Writer) (s : Severity)
    (format : string) (v : list Value) (t : Trace) :
  let std' :=
    WithPriority.SetOutput
      (WithPriority.SetFlags (WithPriority.SetPrefix std prefix) flag) out in
  upto (WithPriority.Logger_SetFlags (WithPriority.Logger_SetPrefix std prefix) flag)
    = upto std
  ∧ WithPriority.Prefix std' = prefix
  ∧ WithPriority.Flags std' = flag
  ∧ (Z.land (upto std') (LOG_MASK (sev_level s)) ≠ 0 →
     ∃ name, Levels !! sev_level s = Some name ∧
       WithPriority.emit s std' format v t
       = (Returns (),
          t ++ [EvWrite (mkLine out prefix flag 3
                           ("[" +:+ name +:+ "] " +:+ Sprintf format v))])).
Proof.
  intros std'. repeat split.
  intros Hpass. rewrite emit_unfold, guarded_pass by done.
  destruct (Logger_printf_line std' s format v t) as (name & Hname & Hline).
  exists name. split; [done|]. by rewrite Hline.
Qed.

End Sink.

Lemma package_Fatal_and_Panic_bypass_upto_witness :
  let lg := log_New os_Stderr "" log_LstdFlags in
  WithSetLevel.Fatal (WithSetLevel.mkPkg lg (LOG_UPTO 0)) "lost %s"
    [Run.GoString "disk"] []
    = (Exits 1, [] ++ [EvWrite (line_of lg 2 "[fatal] lost disk"); EvExit 1])
  ∧ WithSetLevel.Panic (WithSetLevel.mkPkg lg (LOG_UPTO 0)) "lost %s"
      [Run.GoString "disk"] []
    = (Panics "[panic] lost disk",
       [] ++ [EvWrite (line_of lg 2 "[panic] lost disk");
              EvPanic "[panic] lost disk"]).
Proof.
  exact (package_Fatal_and_Panic_bypass_upto (FL := Run_fmt_laws)
           (log_New os_Stderr "" log_LstdFlags) (LOG_UPTO 0) "lost %s"
           [Run.GoString "disk"] []).
Defined.

Lemma sink_settings_reach_the_line_witness :
  let std' :=
    WithPriority.SetOutput
      (WithPriority.SetFlags
         (WithPriority.SetPrefix WithPriority.std_initial "app: ") 0)
      "app.log" in
  ∃ name, Levels !! sev_level SevError = Some name ∧
    WithPriority.emit SevError std' "code %d" [Run.GoInt 2] []
    = (Returns (),
       [] ++ [EvWrite (mkLine "app.log" "app: " 0 3
                         ("[" +:+ name +:+ "] " +:+ Run.render "code %d" [Run.GoInt 2]))]).
Proof.
  intros std'.
  apply (proj2 (proj2 (proj2 (sink_settings_reach_the_line (FL := Run_fmt_laws)
           WithPriority.std_initial "app: " 0 "app.log" SevError "code %d"
           [Run.GoInt 2] [])))).
  vm_compute. discriminate.
Defined.

(** ** Repeated [SetOutput] *)

Lemma SetOutput_upto (std : Logger) (out : Writer) :
  upto (WithPriority.SetOutput std out) = LOG_UPTO (WithPriority.Logger_Priority std).
Proof. reflexivity. Qed.

Lemma Logger_Priority_of_upto (std : Logger) (pri : Level) :
  is_int pri → upto std = LOG_UPTO pri →
  WithPriority.Logger_Priority std
  = if (-1 <=? pri) && (pri <=? 30) then pri + 1 else 32.
Proof.
  intros Hint Hmask. destruct std as [lg mask]. simpl in Hmask. subst mask.
  by apply Logger_Priority_LOG_UPTO_int.
Qed.

(** X14.  Each [SetOutput] on the singleton raises the threshold by one:
    after [SetPriority pri] with pri from -1 on, n calls of [SetOutput]
    leave the mask of priority pri + n as long as that is at most 31; and
    from every priority of 31 or more, or below -1, one [SetOutput] leaves
    the mask of priority 32, where further calls change it no more. *)
Theorem repeated_SetOutput_drifts
    (std : Logger) (pri : Level) (out : Writer) (n : nat) :
  -1 ≤ pri → pri + Z.of_nat n ≤ 31 →
  upto (Nat.iter n (λ l, WithPriority.SetOutput l out)
          (WithPriority.SetPriority std pri))
    = LOG_UPTO (pri + Z.of_nat n)
  ∧ (∀ q, is_int q → q < -1 ∨ 31 ≤ q →
       upto (WithPriority.SetOutput (WithPriority.SetPriority std q) out)
       = LOG_UPTO 32).
Proof.
  intros Hlo Hhi. split.
  - induction n as [|n IH]; [by rewrite Z.add_0_r|].
    simpl Nat.iter. rewrite SetOutput_upto.
    rewrite (Logger_Priority_of_upto _ (pri + Z.of_nat n)).
    + destruct (Z.leb_spec (-1) (pri + Z.of_nat n)),
        (Z.leb_spec (pri + Z.of_nat n) 30); try lia.
      simpl. f_equal. lia.
    + unfold is_int. lia.
    + apply IH. lia.
  - intros q Hq Hout. rewrite SetOutput_upto.
    rewrite (Logger_Priority_of_upto _ q) by done.
    by destruct (Z.leb_spec (-1) q), (Z.leb_spec q 30); try lia.
Qed.

Lemma repeated_SetOutput_drifts_witness :
  upto (Nat.iter 3 (λ l, WithPriority.SetOutput l "app.log")
          (WithPriority.SetPriority WithPriority.std_initial (-1)))
    = LOG_UPTO (-1 + Z.of_nat 3)
  ∧ (∀ q, is_int q → q < -1 ∨ 31 ≤ q →
       upto (WithPriority.SetOutput
               (WithPriority.SetPriority WithPriority.std_initial q) "app.log")
       = LOG_UPTO 32).
Proof.
  apply (repeated_SetOutput_drifts WithPriority.std_initial (-1) "app.log" 3);
    simpl; lia.
Defined.

(** ** Start-up in both revisions *)

Lemma Levels_key_range (k : Level) (name : string) :
  Levels !! k = Some name → 0 ≤ k ≤ 16.
Proof.
  rewrite Levels_entry. unfold Levels_entries. intros Hk.
  repeat (apply elem_of_cons in Hk as [[= -> _]|Hk];
          [unfold LOG_ALERT, LOG_CRIT, LOG_DEBUG, LOG_EMERG, LOG_ERR, LOG_INFO,
             INTERNAL_NOPRI, LOG_NOTICE, LOG_WARNING; lia|]).
  by apply elem_of_nil in Hk.
Qed.

Section StartupBoth.
Context {F : Fmt} {S : Strings}.

Lemma init_SetLevel_match (env : option string) order (k : Level) (name : string) :
  order ≡ₚ map_to_list Levels →
  Levels !! k = Some name →
  ToLower (os_Getenv env) = name →
  WithSetLevel.init env order
  = WithSetLevel.mkPkg WithSetLevel.log_std_initial (LOG_UPTO k).
Proof.
  intros Horder Hk Hlow. unfold WithSetLevel.init. f_equal. subst name.
  apply init_range_SetLevel_match; [by apply Levels_range|].
  intros k' Hk'. apply (Levels_range order) in Hk'; [|done].
  by apply (Levels_names_distinct k' k (ToLower (os_Getenv env))).
Qed.

Lemma init_SetLevel_no_match (env : option string) order :
  order ≡ₚ map_to_list Levels →
  (∀ k name, Levels !! k = Some name → ToLower (os_Getenv env) ≠ name) →
  WithSetLevel.init env order
  = WithSetLevel.mkPkg WithSetLevel.log_std_initial (LOG_UPTO LOG_ERR).
Proof.
  intros Horder Hno. unfold WithSetLevel.init. f_equal.
  apply init_range_SetLevel_no_match. intros k name Hin.
  apply (Hno k). by apply (Levels_range order).
Qed.

(** X15.  Start-up of the revision with [SetLevel], for every order in
    which the runtime may enumerate [Levels]: the standard logger of [log]
    is left as it is; if the lower-cased value of GOLOGLEVEL is the name of
    a level the package variable [upto] is the mask of that level and a
    package function writes exactly when its level is at most that level;
    if it is no such name the mask is that of [LOG_ERR]. *)
Theorem init_resolves_GOLOGLEVEL_SetLevel
    (env : option string) (order : list (Level * string)) (s : Severity)
    (format : string) (v : list Value) :
  order ≡ₚ map_to_list Levels →
  let p := WithSetLevel.init env order in
  WithSetLevel.log_std p = log_New os_Stderr "" log_LstdFlags
  ∧ (∀ k name, Levels !! k = Some name → ToLower (os_Getenv env) = name →
       WithSetLevel.pkg_upto p = LOG_UPTO k
       ∧ if sev_level s <=? k
         then writes_to os_Stderr (WithSetLevel.emit s p format v)
         else silent (WithSetLevel.emit s p format v))
  ∧ ((∀ k name, Levels !! k = Some name → ToLower (os_Getenv env) ≠ name) →
       WithSetLevel.pkg_upto p = LOG_UPTO LOG_ERR
       ∧ if sev_level s <=? LOG_ERR
         then writes_to os_Stderr (WithSetLevel.emit s p format v)
         else silent (WithSetLevel.emit s p format v)).
Proof.
  intros Horder p. split; [done|]. split.
  - intros k name Hk Hlow. unfold p.
    rewrite (init_SetLevel_match env order k name) by done.
    split; [done|].
    pose proof (Levels_key_range k name Hk) as Hrange.
    pose proof (emit_under_SetLevel WithSetLevel.log_std_initial k s format v)
      as Hemit.
    destruct (Z.ltb_spec k (-1)); [lia|]. apply Hemit. unfold is_int. lia.
  - intros Hno. unfold p. rewrite init_SetLevel_no_match by done.
    split; [done|].
    apply (emit_under_SetLevel WithSetLevel.log_std_initial LOG_ERR s format v).
    unfold is_int, LOG_ERR. lia.
Qed.

(** X16.  The singleton after start-up, for the name of any level of the
    table: a package function writes exactly when its level is at most the
    level of the name.  The name "none" stands for level 16, so with it all
    eight functions write. *)
Theorem init_then_emit
    (env : option string) (order : list (Level * string)) (k : Level)
    (name : string) (s : Severity) (format : string) (v : list Value) :
  order ≡ₚ map_to_list Levels →
  Levels !! k = Some name →
  ToLower (os_Getenv env) = name →
  let std := WithPriority.init env order in
  (if sev_level s <=? k
   then writes_to os_Stderr (WithPriority.emit s std format v)
   else silent (WithPriority.emit s std format v))
  ∧ (name = "none"%string → writes_to os_Stderr (WithPriority.emit s std format v)).
Proof.
  intros Horder Hk Hlow std. unfold std.
  rewrite (init_match env order k name) by done.
  pose proof (Levels_key_range k name Hk) as Hrange.
  pose proof (emit_under (logger WithPriority.std_initial) k s format v) as Hemit.
  destruct (Z.ltb_spec k (-1)); [lia|]. simpl in Hemit.
  assert (is_int k) as Hint by (unfold is_int; lia).
  specialize (Hemit Hint). split; [done|].
  intros ->.
  assert (k = INTERNAL_NOPRI) as ->.
  { by apply (Levels_names_distinct k INTERNAL_NOPRI "none"). }
  by destruct s.
Qed.

(** X17.  The order in which the runtime enumerates [Levels] has no effect
    on start-up: any two orders leave the same singleton, and the same
    package state in the revision with [SetLevel], and the two revisions
    start with the same mask. *)
Theorem init_independent_of_order
    (env : option string) (order1 order2 : list (Level * string)) :
  order1 ≡ₚ map_to_list Levels →
  order2 ≡ₚ map_to_list Levels →
  WithPriority.init env order1 = WithPriority.init env order2
  ∧ WithSetLevel.init env order1 = WithSetLevel.init env order2
  ∧ WithSetLevel.pkg_upto (WithSetLevel.init env order1)
    = upto (WithPriority.init env order2).
Proof.
  intros H1 H2.
  destruct (decide (Exists (λ e, e.2 = ToLower (os_Getenv env)) order1))
    as [Hex|Hno].
  - apply Exists_exists in Hex as ([k name] & Hin & Hname). simpl in Hname.
    apply (Levels_range order1) in Hin; [|done].
    rewrite !(init_match env _ k name), !(init_SetLevel_match env _ k name)
      by done.
    done.
  - assert (∀ k name, Levels !! k = Some name → ToLower (os_Getenv env) ≠ name)
      as Hno'.
    { intros k name Hk Heq. apply Hno, Exists_exists.
      exists (k, name). split; [by apply (Levels_range order1)|done]. }
    by rewrite !init_no_match, !init_SetLevel_no_match.
Qed.

End StartupBoth.

Lemma init_resolves_GOLOGLEVEL_SetLevel_witness :
  WithSetLevel.pkg_upto (WithSetLevel.init (Some "Info"%string) (map_to_list Levels))
    = LOG_UPTO LOG_INFO
  ∧ silent (WithSetLevel.emit SevDebug
              (WithSetLevel.init (Some "Info"%string) (map_to_list Levels))
              "n=%d" [Run.GoInt 1]).
Proof.
  apply (proj1 (proj2 (init_resolves_GOLOGLEVEL_SetLevel (F := Run.fmt)
           (S := Run.strs) (Some "Info"%string) (map_to_list Levels) SevDebug
           "n=%d" [Run.GoInt 1] (reflexivity _))) LOG_INFO "info"%string);
    reflexivity.
Defined.

Lemma init_then_emit_witness :
  writes_to os_Stderr
    (WithPriority.emit SevDebug
       (WithPriority.init (Some "NONE"%string) (map_to_list Levels))
       "n=%d" [Run.GoInt 1]).
Proof.
  apply (proj2 (init_then_emit (F := Run.fmt) (S := Run.strs)
           (Some "NONE"%string) (map_to_list Levels) INTERNAL_NOPRI
           "none"%string SevDebug "n=%d" [Run.GoInt 1]
           (reflexivity _) (reflexivity _) (reflexivity _)));
    reflexivity.
Defined.

Lemma init_independent_of_order_witness :
  WithPriority.init (Some "crit"%string) Levels_entries
    = WithPriority.init (Some "crit"%string) (map_to_list Levels)
  ∧ WithSetLevel.init (Some "crit"%string) Levels_entries
    = WithSetLevel.init (Some "crit"%string) (map_to_list Levels)
  ∧ WithSetLevel.pkg_upto (WithSetLevel.init (Some "crit"%string) Levels_entries)
    = upto (WithPriority.init (Some "crit"%string) (map_to_list Levels)).
Proof.
  apply (init_independent_of_order (S := Run.strs) (Some "crit"%string)
           Levels_entries (map_to_list Levels)).
  - symmetry. apply map_to_list_to_map. by compute_done.
  - reflexivity.
Defined.

(** ** The facility constants *)

(** X18.  Every facility of the table is eight times its number: or-ed
    with a level in 0..7, the packing of syslog.h, it is unpacked exactly,
    [LOG_PRI] giving the level and [LOG_FAC] the number of the facility,
    which is at most [LOG_NFACILITIES]. *)
Theorem facility_or_level_unpacked (fac : Facility) (name : string) (pri : Level) :
  Facilities !! fac = Some name →
  0 ≤ pri ≤ 7 →
  LOG_PRI (Z.lor fac pri) = pri
  ∧ Z.shiftl (LOG_FAC (Z.lor fac pri)) 3 = fac
  ∧ 0 ≤ LOG_FAC (Z.lor fac pri) ≤ LOG_NFACILITIES.
Proof.
  intros Hfac Hpri. apply Facilities_entry in Hfac.
  unfold Facilities_entries in Hfac.
  repeat (apply elem_of_cons in Hfac as [[= -> ->]|Hfac];
          [each_level Hpri; by vm_compute|]).
  by apply elem_of_nil in Hfac.
Qed.

Lemma facility_or_level_unpacked_witness :
  LOG_PRI (Z.lor LOG_LOCAL7 6) = 6
  ∧ Z.shiftl (LOG_FAC (Z.lor LOG_LOCAL7 6)) 3 = LOG_LOCAL7
  ∧ 0 ≤ LOG_FAC (Z.lor LOG_LOCAL7 6) ≤ LOG_NFACILITIES.
Proof.
  apply (facility_or_level_unpacked LOG_LOCAL7 "local7" 6); [reflexivity | lia].
Defined.
